(** * Synchronized checkpoints (checkpointsync.cpp)

    A shallow embedding of the checkpoint state machine of
    [src/checkpointsync.cpp]: consistency validation of a received
    checkpoint against the current one, the commit / defer / reject
    decisions of [ProcessSyncCheckpoint] and [AcceptPendingSyncCheckpoint],
    the per-block enforcement check [CheckSyncCheckpoint], and the automatic
    selection of a checkpoint by depth.

    The file-scope variables of the translation unit, the block tree
    database, the debug log and the network outbox are gathered in one
    record [Node]; every function of the source that touches them is a
    computation in a state monad over [Node] that can also stop abnormally
    (a failed [assert], an exception of the stream decoder, a null
    dereference). *)

From stdpp Require Import base option list gmap strings.
From Stdlib Require Import ZArith Lia.

#[local] Open Scope Z_scope.

(** ** Hashes and the block index *)

(** [uint256]: only equality and the all-zero sentinel are used. *)
Definition uint256 := N.

(** [ArithToUint256(arith_uint256(0))] and [uint256()]. *)
Definition uint256_zero : uint256 := 0%N.

(** [CBlockIndex]: the fields this file reads.  [pprev] is a pointer to the
    entry of the parent block or null; the entries reachable through it
    form a finite, acyclic list, which is the inductive structure here. *)
#[warnings="-register-all"] Inductive CBlockIndex : Type :=
  mkBlockIndex {
    phashBlock : uint256;
    nHeight : Z;
    pprev : option CBlockIndex
  }.

Definition GetBlockHash (pindex : CBlockIndex) : uint256 := phashBlock pindex.

(** The entries met by following [pprev] from [pindex], itself first. *)
Fixpoint ancestry (pindex : CBlockIndex) : list CBlockIndex :=
  pindex :: match pprev pindex with
            | Some p => ancestry p
            | None => []
            end.

(** Heights along parent links, as the block index builds them:
    a child is one above its parent. *)
Fixpoint heights_linked (pindex : CBlockIndex) : Prop :=
  match pprev pindex with
  | Some p => nHeight p = nHeight pindex - 1 /\ heights_linked p
  | None => True
  end.

(** The entry without parent at the end of the parent links. *)
Fixpoint root_of (pindex : CBlockIndex) : CBlockIndex :=
  match pprev pindex with
  | Some p => root_of p
  | None => pindex
  end.

(** A tip whose parent links lead down to a genesis block of height 0. *)
Definition rooted_at_genesis (pindex : CBlockIndex) : Prop :=
  heights_linked pindex /\ nHeight (root_of pindex) = 0.

(** The first entry of the ancestry whose height is [h], if any. *)
Fixpoint ancestor_at (h : Z) (pindex : CBlockIndex) : option CBlockIndex :=
  if nHeight pindex =? h then Some pindex
  else match pprev pindex with
       | Some p => ancestor_at h p
       | None => None
       end.

(** ** Collaborators that are not part of this translation unit *)

(** Modelled from the spec: the class [CChain] (the active chain) is declared
    outside this file; the spec lists it as ChainView with a membership test
    [activeChainContains(entry) -> bool] and a tip.  [Tip] is [None] for the
    null pointer of an empty chain. *)
Class ChainView (CChain : Type) := {
  Tip : CChain -> option CBlockIndex;
  Contains : CChain -> CBlockIndex -> bool
}.

(** Modelled from the spec: signature verification against the fixed master
    public key ([CPubKey::Verify] over [Hash(vchMsg)]) and the decoder of the
    unsigned payload, which yields the checkpoint hash or raises a stream
    exception on malformed bytes. *)
Class MessageCodec := {
  VerifyMaster : list Byte.byte -> list Byte.byte -> bool;
  Unserialize : list Byte.byte -> option uint256
}.

(** ** Checkpoint messages *)

Record CSyncCheckpoint := mkSyncCheckpoint {
  hashCheckpoint : uint256;
  vchMsg : list Byte.byte;
  vchSig : list Byte.byte
}.

(** Modelled from the spec: [SetNull] and [IsNull] are declared in the header;
    the spec says a message is null if its hash is the sentinel zero. *)
Definition SetNull : CSyncCheckpoint :=
  {| hashCheckpoint := uint256_zero; vchMsg := []; vchSig := [] |}.

Definition IsNull (m : CSyncCheckpoint) : bool :=
  (hashCheckpoint m =? uint256_zero)%N.

(** ** The debug log *)

(** One constructor per [error(...)] and [LogPrintf(...)] call of the file,
    with the hashes the format string prints. *)
Inductive LogLine :=
  | ErrMissingCurrent (hashSync : uint256)
  | ErrMissingReceived (hash : uint256)
  | ErrConflicting (hash hashSync : uint256)
  | ErrPprev2Null
  | ErrNotDescendant (hash hashSync : uint256)
  | ErrWriteTxdb (hash : uint256)
  | ErrAcceptPendingWrite (hash : uint256)
  | ErrPprevNull
  | ErrOnlyDescendants
  | ErrSameHeight
  | ErrLowerHeight
  | ErrVerifySignature
  | LogMissingHeaders (hash : uint256)
  | LogPending (hash : uint256)
  | ErrProcessWrite (hash : uint256).

(** ** The block tree database *)

(** Modelled from the spec: CheckpointStore, [writeLastCheckpoint(Hash) ->
    Result<(), IoError>].  [db_failing] says that the next write is refused;
    [db_writes] is the history of accepted writes, most recent first. *)
Record CBlockTreeDB := mkDB {
  db_checkpoint : option uint256;
  db_writes : list uint256;
  db_failing : bool
}.

Definition db_WriteSyncCheckpoint (h : uint256) (db : CBlockTreeDB)
  : bool * CBlockTreeDB :=
  if db_failing db then (false, db)
  else (true, {| db_checkpoint := Some h;
                 db_writes := h :: db_writes db;
                 db_failing := db_failing db |}).

(** ** The network *)

Definition NodeId := nat.

(** Modelled from the spec: Network relay, [relay(CheckpointMessage, peers)].
    [g_connman] is null when P2P is disabled; otherwise it owns the connected
    peers that [ForEachNode] visits. *)
Record CConnman := mkConnman { vNodes : list NodeId }.

(** ** The state of a node *)

Section NodeState.
Context {CChain : Type}.

(** Everything the functions of the file read or write.  The
    [ChainstateManager] and its active [Chainstate] share one block index,
    so both are this record.  [nFlushes] counts the calls of
    [ForceFlushStateToDisk], [relayed] lists the calls of [RelayTo] in
    order. *)
Record Node := mkNode {
  (* file-scope variables, lines 66 to 73 *)
  hashSyncCheckpoint : uint256;
  hashPendingCheckpoint : uint256;
  checkpointMessage : CSyncCheckpoint;
  checkpointMessagePending : CSyncCheckpoint;
  hashInvalidCheckpoint : uint256;
  strCheckpointWarning : string;
  (* Chainstate: m_blockman.m_block_index, m_chain, m_block_tree_db *)
  m_block_index : gmap N CBlockIndex;
  m_chain : CChain;
  m_block_tree_db : CBlockTreeDB;
  nFlushes : nat;
  (* the world outside *)
  g_connman : option CConnman;
  relayed : list (NodeId * CSyncCheckpoint);
  debug_log : list LogLine
}.

Definition set_hashSyncCheckpoint (h : uint256) (s : Node) : Node :=
  mkNode h (hashPendingCheckpoint s) (checkpointMessage s)
    (checkpointMessagePending s) (hashInvalidCheckpoint s)
    (strCheckpointWarning s) (m_block_index s) (m_chain s)
    (m_block_tree_db s) (nFlushes s) (g_connman s) (relayed s) (debug_log s).

Definition set_hashPendingCheckpoint (h : uint256) (s : Node) : Node :=
  mkNode (hashSyncCheckpoint s) h (checkpointMessage s)
    (checkpointMessagePending s) (hashInvalidCheckpoint s)
    (strCheckpointWarning s) (m_block_index s) (m_chain s)
    (m_block_tree_db s) (nFlushes s) (g_connman s) (relayed s) (debug_log s).

Definition set_checkpointMessage (m : CSyncCheckpoint) (s : Node) : Node :=
  mkNode (hashSyncCheckpoint s) (hashPendingCheckpoint s) m
    (checkpointMessagePending s) (hashInvalidCheckpoint s)
    (strCheckpointWarning s) (m_block_index s) (m_chain s)
    (m_block_tree_db s) (nFlushes s) (g_connman s) (relayed s) (debug_log s).

Definition set_checkpointMessagePending (m : CSyncCheckpoint) (s : Node)
  : Node :=
  mkNode (hashSyncCheckpoint s) (hashPendingCheckpoint s)
    (checkpointMessage s) m (hashInvalidCheckpoint s)
    (strCheckpointWarning s) (m_block_index s) (m_chain s)
    (m_block_tree_db s) (nFlushes s) (g_connman s) (relayed s) (debug_log s).

Definition set_hashInvalidCheckpoint (h : uint256) (s : Node) : Node :=
  mkNode (hashSyncCheckpoint s) (hashPendingCheckpoint s)
    (checkpointMessage s) (checkpointMessagePending s) h
    (strCheckpointWarning s) (m_block_index s) (m_chain s)
    (m_block_tree_db s) (nFlushes s) (g_connman s) (relayed s) (debug_log s).

Definition set_block_tree_db (db : CBlockTreeDB) (s : Node) : Node :=
  mkNode (hashSyncCheckpoint s) (hashPendingCheckpoint s)
    (checkpointMessage s) (checkpointMessagePending s)
    (hashInvalidCheckpoint s) (strCheckpointWarning s) (m_block_index s)
    (m_chain s) db (nFlushes s) (g_connman s) (relayed s) (debug_log s).

Definition set_nFlushes (n : nat) (s : Node) : Node :=
  mkNode (hashSyncCheckpoint s) (hashPendingCheckpoint s)
    (checkpointMessage s) (checkpointMessagePending s)
    (hashInvalidCheckpoint s) (strCheckpointWarning s) (m_block_index s)
    (m_chain s) (m_block_tree_db s) n (g_connman s) (relayed s)
    (debug_log s).

Definition set_relayed (r : list (NodeId * CSyncCheckpoint)) (s : Node)
  : Node :=
  mkNode (hashSyncCheckpoint s) (hashPendingCheckpoint s)
    (checkpointMessage s) (checkpointMessagePending s)
    (hashInvalidCheckpoint s) (strCheckpointWarning s) (m_block_index s)
    (m_chain s) (m_block_tree_db s) (nFlushes s) (g_connman s) r
    (debug_log s).

Definition set_debug_log (l : list LogLine) (s : Node) : Node :=
  mkNode (hashSyncCheckpoint s) (hashPendingCheckpoint s)
    (checkpointMessage s) (checkpointMessagePending s)
    (hashInvalidCheckpoint s) (strCheckpointWarning s) (m_block_index s)
    (m_chain s) (m_block_tree_db s) (nFlushes s) (g_connman s) (relayed s) l.

(** ** The monad of the source's functions *)

Inductive failure := AssertionFailed | StreamException | NullDereference.

Inductive outcome (A : Type) :=
  | Returns (a : A) (s : Node)
  | Stops (f : failure).
#[global] Arguments Returns {A} a s.
#[global] Arguments Stops {A} f.

Definition M (A : Type) := Node -> outcome A.

Definition ret {A} (a : A) : M A := fun s => Returns a s.

Definition bind {A B} (c : M A) (k : A -> M B) : M B :=
  fun s => match c s with
           | Returns a s' => k a s'
           | Stops f => Stops f
           end.

Definition get : M Node := fun s => Returns s s.
Definition modify (f : Node -> Node) : M unit := fun s => Returns tt (f s).
Definition stop {A} (f : failure) : M A := fun _ => Stops f.

(** [assert(c)] *)
Definition assert (c : bool) : M unit :=
  if c then ret tt else stop AssertionFailed.

(** [LogPrintf(...)]: the debug log grows at its end. *)
Definition LogPrintf (l : LogLine) : M unit :=
  modify (fun s => set_debug_log (debug_log s ++ [l]) s).

(** [error(...)] logs its message and evaluates to [false]. *)
Definition error (l : LogLine) : M bool :=
  bind (LogPrintf l) (fun _ => ret false).

End NodeState.

#[global] Arguments Node : clear implicits.
#[global] Arguments outcome : clear implicits.
#[global] Arguments M : clear implicits.

Declare Scope cpp_scope.
Delimit Scope cpp_scope with cpp.
Notation "'let!' x ':=' c 'in' k" := (bind c (fun x => k))
  (at level 10, x name, c at level 100, k at level 200) : cpp_scope.
Notation "c ';;' k" := (bind c (fun _ => k))
  (at level 100, k at level 200, right associativity) : cpp_scope.

(** ** The functions of checkpointsync.cpp *)

Section Functions.
Context {CChain : Type} `{!ChainView CChain} `{!MessageCodec}.

#[local] Open Scope cpp_scope.

#[local] Abbreviation M := (M CChain).

(** The loop of lines 103 to 105:
    [while (pindex->nHeight > h) if (!(pindex = pindex->pprev)) return error]
    [None] is the null parent. *)
Fixpoint trace_to_height (h : Z) (pindex : CBlockIndex)
  : option CBlockIndex :=
  if nHeight pindex >? h then
    match pprev pindex with
    | Some p => trace_to_height h p
    | None => None
    end
  else Some pindex.

(** Only descendant of current sync-checkpoint is allowed. *)
Definition ValidateSyncCheckpoint (hashCheckpoint : uint256) : M bool :=
  let! s := get in
  match m_block_index s !! hashSyncCheckpoint s with
  | None => error (ErrMissingCurrent (hashSyncCheckpoint s))
  | Some pindexSyncCheckpoint =>
    match m_block_index s !! hashCheckpoint with
    | None => error (ErrMissingReceived hashCheckpoint)
    | Some pindexCheckpointRecv =>
      if nHeight pindexCheckpointRecv <=? nHeight pindexSyncCheckpoint then
        if negb (Contains (m_chain s) pindexCheckpointRecv) then
          modify (set_hashInvalidCheckpoint hashCheckpoint);;
          error (ErrConflicting hashCheckpoint (hashSyncCheckpoint s))
        else ret false (* ignore older checkpoint *)
      else
        match trace_to_height (nHeight pindexSyncCheckpoint)
                pindexCheckpointRecv with
        | None => error ErrPprev2Null
        | Some pindex =>
          if negb (GetBlockHash pindex =? hashSyncCheckpoint s)%N then
            modify (set_hashInvalidCheckpoint hashCheckpoint);;
            error (ErrNotDescendant hashCheckpoint (hashSyncCheckpoint s))
          else ret true
        end
    end
  end.

(** [m_block_tree_db->WriteSyncCheckpoint(hash)] *)
Definition txdb_WriteSyncCheckpoint (h : uint256) : M bool :=
  fun s =>
    let '(ok, db) := db_WriteSyncCheckpoint h (m_block_tree_db s) in
    Returns ok (set_block_tree_db db s).

Definition ForceFlushStateToDisk : M unit :=
  modify (fun s => set_nFlushes (S (nFlushes s)) s).

Definition WriteSyncCheckpoint (hashCheckpoint : uint256) : M bool :=
  let! ok := txdb_WriteSyncCheckpoint hashCheckpoint in
  if negb ok then error (ErrWriteTxdb hashCheckpoint)
  else
    ForceFlushStateToDisk;;
    modify (set_hashSyncCheckpoint hashCheckpoint);;
    ret true.

(** The state of the node after the first [n] statements of
    [WriteSyncCheckpoint] (the store write, the flush, the assignment),
    the points at which the process can be interrupted. *)
Definition WriteSyncCheckpoint_upto (n : nat) (hashCheckpoint : uint256)
  : M bool :=
  match n with
  | O => ret true
  | S O => txdb_WriteSyncCheckpoint hashCheckpoint
  | S (S O) =>
    let! ok := txdb_WriteSyncCheckpoint hashCheckpoint in
    if negb ok then error (ErrWriteTxdb hashCheckpoint)
    else ForceFlushStateToDisk;; ret true
  | _ => WriteSyncCheckpoint hashCheckpoint
  end.

(** [g_connman->ForEachNode([](CNode* pnode) { m.RelayTo(pnode); })]:
    one [RelayTo] per connected peer, in the order of the peer list. *)
Definition ForEachNode_RelayTo (c : CConnman) (m : CSyncCheckpoint)
  : M unit :=
  modify (fun s =>
    set_relayed (relayed s ++ map (fun n => (n, m)) (vNodes c)) s).

Definition AcceptPendingSyncCheckpoint : M bool :=
  let! s := get in
  let havePendingCheckpoint :=
    negb (hashPendingCheckpoint s =? uint256_zero)%N
    && bool_decide (is_Some (m_block_index s !! hashPendingCheckpoint s)) in
  if negb havePendingCheckpoint then ret false
  else
    let! ok := ValidateSyncCheckpoint (hashPendingCheckpoint s) in
    if negb ok then
      modify (set_hashPendingCheckpoint uint256_zero);;
      modify (set_checkpointMessagePending SetNull);;
      ret false
    else
      let! s := get in
      match m_block_index s !! hashPendingCheckpoint s with
      | None => stop NullDereference (* excluded by havePendingCheckpoint *)
      | Some pindexPending =>
        if negb (Contains (m_chain s) pindexPending) then ret false
        else
          let! ok := WriteSyncCheckpoint (hashPendingCheckpoint s) in
          if negb ok then
            error (ErrAcceptPendingWrite (hashPendingCheckpoint s))
          else
            modify (set_hashPendingCheckpoint uint256_zero);;
            modify (fun s =>
              set_checkpointMessage (checkpointMessagePending s) s);;
            modify (set_checkpointMessagePending SetNull);;
            (* Relay the checkpoint *)
            let! s := get in
            match g_connman s with
            | Some connman =>
              if negb (IsNull (checkpointMessage s)) then
                ForEachNode_RelayTo connman (checkpointMessage s)
              else ret tt
            | None => ret tt
            end;;
            ret true
      end.

(** ** Automatic selection *)

(** The conversion [(int)] of the 64-bit value of [GetIntArg]: its low
    32 bits, read as a signed number. *)
Definition int_of_int64 (z : Z) : Z := (z + 2 ^ 31) mod 2 ^ 32 - 2 ^ 31.

(** [int] addition.  An overflow is undefined in C++; it wraps here, and
    the statements below stay in the range where it does not happen. *)
Definition int_add (a b : Z) : Z := int_of_int64 (a + b).

(** The loop of lines 165 and 166. *)
Fixpoint search_backward (depth tipHeight : Z) (pindex : CBlockIndex)
  : CBlockIndex :=
  match pprev pindex with
  | Some p =>
    if int_add (nHeight pindex) depth >? tipHeight
    then search_backward depth tipHeight p
    else pindex
  | None => pindex
  end.

(** [checkpointdepth] is the value of
    [gArgs.GetIntArg("-checkpointdepth", DEFAULT_AUTOCHECKPOINT)], a
    64-bit integer.  [None] is the dereference of the null tip of an empty
    chain. *)
Definition AutoSelectSyncCheckpoint (checkpointdepth : Z) (chain : CChain)
  : option uint256 :=
  match Tip chain with
  | None => None
  | Some tip =>
    Some (GetBlockHash
            (search_backward (int_of_int64 checkpointdepth) (nHeight tip)
               tip))
  end.

(** ** Enforcement *)

(** The loop of lines 189 to 191. *)
Fixpoint trace_to_chain (chain : CChain) (h : Z) (pindex : CBlockIndex)
  : option CBlockIndex :=
  if (nHeight pindex >? h) && negb (Contains chain pindex) then
    match pprev pindex with
    | Some p => trace_to_chain chain h p
    | None => None
    end
  else Some pindex.

(** Check against synchronized checkpoint. *)
Definition CheckSyncCheckpoint (pindexNew : option CBlockIndex) : M bool :=
  match pindexNew with
  | None => stop AssertionFailed
  | Some pindexNew =>
    if nHeight pindexNew =? 0 then ret true
    else
      let hashBlock := GetBlockHash pindexNew in
      let nHeight_ := nHeight pindexNew in
      let! s := get in
      (* Checkpoint should always be accepted block *)
      match m_block_index s !! hashSyncCheckpoint s with
      | None => stop AssertionFailed
      | Some pindexSync =>
        assert (Contains (m_chain s) pindexSync);;
        let below :=
          if (nHeight_ =? nHeight pindexSync)
             && negb (hashBlock =? hashSyncCheckpoint s)%N
          then error ErrSameHeight
          else if (nHeight_ <? nHeight pindexSync)
                  && negb (bool_decide
                             (is_Some (m_block_index s !! hashBlock)))
          then error ErrLowerHeight
          else ret true in
        if nHeight_ >? nHeight pindexSync then
          (* Trace back to same height as sync-checkpoint *)
          match trace_to_chain (m_chain s) (nHeight pindexSync)
                  pindexNew with
          | None => error ErrPprevNull
          | Some pindex =>
            if negb (Contains (m_chain s) pindex)
            then error ErrOnlyDescendants
            else below
          end
        else below
      end
  end.

(** ** Messages *)

(** Verify signature of sync-checkpoint message.  The message object is
    updated in place by the decoder, so it is returned with the result. *)
Definition CheckSignature (this : CSyncCheckpoint)
  : M (bool * CSyncCheckpoint) :=
  if negb (VerifyMaster (vchMsg this) (vchSig this)) then
    let! b := error ErrVerifySignature in ret (b, this)
  else
    (* Now unserialize the data *)
    match Unserialize (vchMsg this) with
    | None => stop StreamException
    | Some h =>
      ret (true, {| hashCheckpoint := h;
                    vchMsg := vchMsg this;
                    vchSig := vchSig this |})
    end.

(** Process synchronized checkpoint. *)
Definition ProcessSyncCheckpoint (this : CSyncCheckpoint) : M bool :=
  let! r := CheckSignature this in
  let this := snd r in
  if negb (fst r) then ret false
  else
    let! s := get in
    match m_block_index s !! hashCheckpoint this with
    | None =>
      LogPrintf (LogMissingHeaders (hashCheckpoint this));;
      ret false
    | Some pindexCheckpoint =>
      let! ok := ValidateSyncCheckpoint (hashCheckpoint this) in
      if negb ok then ret false
      else
        let! s := get in
        let pass := Contains (m_chain s) pindexCheckpoint in
        if negb pass then
          (* We haven't received the checkpoint chain, keep the
             checkpoint as pending *)
          modify (set_hashPendingCheckpoint (hashCheckpoint this));;
          modify (set_checkpointMessagePending this);;
          LogPrintf (LogPending (hashCheckpoint this));;
          ret false
        else
          let! ok := WriteSyncCheckpoint (hashCheckpoint this) in
          if negb ok then error (ErrProcessWrite (hashCheckpoint this))
          else
            modify (set_checkpointMessage this);;
            modify (set_hashPendingCheckpoint uint256_zero);;
            modify (set_checkpointMessagePending SetNull);;
            ret true
    end.

(** The message as [CheckSignature] leaves it when the signature verifies
    and the payload decodes to [h]. *)
Definition decoded (this : CSyncCheckpoint) (h : uint256)
  : CSyncCheckpoint :=
  {| hashCheckpoint := h; vchMsg := vchMsg this; vchSig := vchSig this |}.

End Functions.

(** ** A concrete node

    The active chain as the vector of its entries by height, a toy codec,
    and a small block tree with a fork at height 1 and one at height 2:
<<
      G(1) <- A(2) <- B(3) <- C(6)
        \       \
         X(7)    B'(4) <- C'(5)
>>
    (hashes in parentheses). *)

Module Example.

Definition same_entry (a b : CBlockIndex) : bool :=
  (phashBlock a =? phashBlock b)%N.

(** A vector chain contains an entry when the slot of its height holds it. *)
#[export] Instance vector_chain : ChainView (list CBlockIndex) := {
  Tip v := last v;
  Contains v pindex :=
    if nHeight pindex <? 0 then false
    else match v !! Z.to_nat (nHeight pindex) with
         | Some q => same_entry q pindex
         | None => false
         end
}.

(** A one-byte payload carrying the hash; the signature of a payload is the
    payload reversed. *)
#[export] Instance toy_codec : MessageCodec := {
  VerifyMaster msg sig :=
    bool_decide (map Byte.to_N sig = map Byte.to_N (rev msg));
  Unserialize msg :=
    match msg with
    | [b] => Some (Byte.to_N b)
    | _ => None
    end
}.

Definition G := mkBlockIndex 1%N 0 None.
Definition A := mkBlockIndex 2%N 1 (Some G).
Definition B := mkBlockIndex 3%N 2 (Some A).
Definition B' := mkBlockIndex 4%N 2 (Some A).
Definition C' := mkBlockIndex 5%N 3 (Some B').
Definition C := mkBlockIndex 6%N 3 (Some B).
Definition X := mkBlockIndex 7%N 1 (Some G).

(** An entry whose parent links stop above the genesis block. *)
Definition Orphan := mkBlockIndex 8%N 3 None.

Definition block_index : gmap N CBlockIndex :=
  list_to_map
    [(1%N, G); (2%N, A); (3%N, B); (4%N, B'); (5%N, C'); (6%N, C);
     (7%N, X); (8%N, Orphan)].

Definition healthy_db (h : uint256) : CBlockTreeDB :=
  {| db_checkpoint := Some h; db_writes := [h]; db_failing := false |}.

Definition failing_db (h : uint256) : CBlockTreeDB :=
  {| db_checkpoint := Some h; db_writes := [h]; db_failing := true |}.

Definition msg_for (b : Byte.byte) : CSyncCheckpoint :=
  {| hashCheckpoint := uint256_zero; vchMsg := [b]; vchSig := [b] |}.

(** Messages for the blocks B (hash 3), C (hash 6), C' (hash 5), X (hash 7). *)
Definition msgB := msg_for Byte.x03.
Definition msgC := msg_for Byte.x06.
Definition msgC' := msg_for Byte.x05.
Definition msgX := msg_for Byte.x07.

(** A node whose checkpoint is [sync], with active chain [chain]. *)
Definition node (sync : uint256) (chain : list CBlockIndex)
    (db : CBlockTreeDB) (connman : option CConnman)
  : Node (list CBlockIndex) :=
  {| hashSyncCheckpoint := sync;
     hashPendingCheckpoint := uint256_zero;
     checkpointMessage := SetNull;
     checkpointMessagePending := SetNull;
     hashInvalidCheckpoint := uint256_zero;
     strCheckpointWarning := EmptyString;
     m_block_index := block_index;
     m_chain := chain;
     m_block_tree_db := db;
     nFlushes := 0;
     g_connman := connman;
     relayed := [];
     debug_log := [] |}.

Definition two_peers : option CConnman := Some (mkConnman [10%nat; 11%nat]).

(** Checkpoint at A, active chain G, A, B. *)
Definition node_AB : Node (list CBlockIndex) :=
  node 2%N [G; A; B] (healthy_db 2%N) two_peers.

(** Checkpoint at A, active chain G, A, B, C. *)
Definition node_ABC : Node (list CBlockIndex) :=
  node 2%N [G; A; B; C] (healthy_db 2%N) two_peers.

(** The same with a store that refuses writes. *)
Definition node_ABC_failing : Node (list CBlockIndex) :=
  node 2%N [G; A; B; C] (failing_db 2%N) two_peers.

(** Checkpoint at B, active chain G, A, B, C. *)
Definition node_B : Node (list CBlockIndex) :=
  node 3%N [G; A; B; C] (healthy_db 3%N) two_peers.

(** [s] holding the pending checkpoint of message [m], decoded to [h]. *)
Definition with_pending (h : uint256) (m : CSyncCheckpoint)
    (s : Node (list CBlockIndex)) : Node (list CBlockIndex) :=
  set_checkpointMessagePending (decoded m h) (set_hashPendingCheckpoint h s).

End Example.

(** The state [s] after one more line in the debug log. *)
Definition logged {CChain : Type} (l : LogLine) (s : Node CChain)
  : Node CChain :=
  set_debug_log (debug_log s ++ [l]) s.

(** The state a call leaves behind; the state it started from when it
    stopped abnormally. *)
Definition state_after {CChain : Type} {A : Type} (s : Node CChain)
    (o : outcome CChain A) : Node CChain :=
  match o with
  | Returns _ s' => s'
  | Stops _ => s
  end.

(** The state after [n] calls of [ProcessSyncCheckpoint] on the same
    message. *)
Definition process_repeatedly {CChain : Type} `{!ChainView CChain}
    `{!MessageCodec} (this : CSyncCheckpoint) (n : nat) (s : Node CChain)
  : Node CChain :=
  Nat.iter n (fun s' => state_after s' (ProcessSyncCheckpoint this s')) s.

(** The two ways a message gets committed: [ProcessSyncCheckpoint] returns
    [true] for it, or it is the verified message of the pending hash and
    [AcceptPendingSyncCheckpoint] returns [true].  [s] is the state before
    and [s1] the state after the commit. *)
Definition committed {CChain : Type} `{!ChainView CChain} `{!MessageCodec}
    (this : CSyncCheckpoint) (s s1 : Node CChain) : Prop :=
  ProcessSyncCheckpoint this s = Returns true s1
  \/ (VerifyMaster (vchMsg this) (vchSig this) = true
      /\ Unserialize (vchMsg this) = Some (hashPendingCheckpoint s)
      /\ AcceptPendingSyncCheckpoint s = Returns true s1).

(** Induction along the parent links. *)
Fixpoint CBlockIndex_chain_ind (P : CBlockIndex -> Prop)
    (Hroot : forall h n, P (mkBlockIndex h n None))
    (Hstep : forall h n p, P p -> P (mkBlockIndex h n (Some p)))
    (pindex : CBlockIndex) : P pindex :=
  match pindex with
  | mkBlockIndex h n None => Hroot h n
  | mkBlockIndex h n (Some p) =>
    Hstep h n p (CBlockIndex_chain_ind P Hroot Hstep p)
  end.

(** ** The master side and the check of the master public key *)

(** Modelled from the spec: the consensus parameters are declared outside
    this file; the spec names a protocol-defined default checkpoint
    ([defaultAssumeValid]) and the single master public key fixed by the
    network parameters ([checkpointPubKey]). *)
Class ConsensusParams := {
  defaultAssumeValid : uint256;
  checkpointPubKey : string
}.

(** Modelled from the spec: the private key of the master
    ([DecodeSecret], [None] when [IsValid()] is false; [CKey::Sign], [None]
    when it returns false) and the encoder of the unsigned payload. *)
Class MasterKey := {
  CKey : Type;
  DecodeSecret : string -> option CKey;
  Sign : CKey -> list Byte.byte -> option (list Byte.byte);
  SerializeUnsigned : uint256 -> list Byte.byte
}.

(** Modelled from the spec: [CConnman::GetNodeCount], the number of peers the
    transport counts as connected; nothing relates it to the peers that
    [ForEachNode] visits. *)
Class ConnmanView := {
  GetNodeCount : CConnman -> nat
}.

(** Modelled from the spec: CheckpointStore, [readMasterPubKey() ->
    Option<String>] and [writeMasterPubKey(String) -> Result<(), IoError>].
    [db_pubkey_failing] says that the write of the key is refused. *)
Record CheckpointKeyTable := mkKeyTable {
  db_pubkey : option string;
  db_pubkey_failing : bool
}.

Definition db_WriteCheckpointPubKey (k : string) (t : CheckpointKeyTable)
  : bool * CheckpointKeyTable :=
  if db_pubkey_failing t then (false, t)
  else (true, {| db_pubkey := Some k;
                 db_pubkey_failing := db_pubkey_failing t |}).

(** The [error(...)] calls of lines 206 to 285. *)
Inductive MasterLogLine :=
  | ErrResetWrite (hash : uint256)
  | ErrPubKeyReset
  | ErrPubKeyWrite
  | ErrMasterKeyUnavailable
  | ErrMasterKeyInvalid
  | ErrSign
  | ErrSendProcess.

Section MasterState.
Context {CChain : Type}.

(** A node together with what lines 206 to 285 use besides:
    [CSyncCheckpoint::strMasterPrivKey], the key entry of the block tree
    database, and the lines those functions write to the debug log.  Each
    line of [master_log] carries the length of [debug_log] at the time it
    was written, which fixes its place among the lines of [debug_log]. *)
Record MasterNode := mkMasterNode {
  base : Node CChain;
  strMasterPrivKey : string;
  key_table : CheckpointKeyTable;
  master_log : list (nat * MasterLogLine)
}.

Definition set_node (n : Node CChain) (ms : MasterNode) : MasterNode :=
  mkMasterNode n (strMasterPrivKey ms) (key_table ms) (master_log ms).

Definition set_strMasterPrivKey (k : string) (ms : MasterNode)
  : MasterNode :=
  mkMasterNode (base ms) k (key_table ms) (master_log ms).

Definition set_key_table (t : CheckpointKeyTable) (ms : MasterNode)
  : MasterNode :=
  mkMasterNode (base ms) (strMasterPrivKey ms) t (master_log ms).

Definition set_master_log (l : list (nat * MasterLogLine)) (ms : MasterNode)
  : MasterNode :=
  mkMasterNode (base ms) (strMasterPrivKey ms) (key_table ms) l.

Inductive master_outcome (A : Type) :=
  | MReturns (a : A) (ms : MasterNode)
  | MStops (f : failure).
#[global] Arguments MReturns {A} a ms.
#[global] Arguments MStops {A} f.

Definition MM (A : Type) := MasterNode -> master_outcome A.

Definition master_ret {A} (a : A) : MM A := fun ms => MReturns a ms.

Definition master_bind {A B} (c : MM A) (k : A -> MM B) : MM B :=
  fun ms => match c ms with
            | MReturns a ms' => k a ms'
            | MStops f => MStops f
            end.

Definition master_get : MM MasterNode := fun ms => MReturns ms ms.

Definition master_modify (f : MasterNode -> MasterNode) : MM unit :=
  fun ms => MReturns tt (f ms).

(** A function of the first part of the file, run on the node inside. *)
Definition lift {A} (c : M CChain A) : MM A :=
  fun ms => match c (base ms) with
            | Returns a n => MReturns a (set_node n ms)
            | Stops f => MStops f
            end.

(** [error(...)] for the lines of [MasterLogLine]. *)
Definition master_error (l : MasterLogLine) : MM bool :=
  fun ms =>
    MReturns false
      (set_master_log
         (master_log ms ++ [(length (debug_log (base ms)), l)]) ms).

End MasterState.

#[global] Arguments MasterNode : clear implicits.
#[global] Arguments master_outcome : clear implicits.
#[global] Arguments MM : clear implicits.

Declare Scope master_scope.
Delimit Scope master_scope with master.
Notation "'let!' x ':=' c 'in' k" := (master_bind c (fun x => k))
  (at level 10, x name, c at level 100, k at level 200) : master_scope.
Notation "c ';;' k" := (master_bind c (fun _ => k))
  (at level 100, k at level 200, right associativity) : master_scope.

Section MasterFunctions.
Context {CChain : Type} `{!ChainView CChain} `{!MessageCodec}
  `{!ConsensusParams} `{!MasterKey} `{!ConnmanView}.

#[local] Open Scope master_scope.

#[local] Abbreviation MM := (MM CChain).

(** Reset synchronized checkpoint to the assume valid block. *)
Definition ResetSyncCheckpoint : MM bool :=
  let! ok := lift (WriteSyncCheckpoint defaultAssumeValid) in
  if negb ok then master_error (ErrResetWrite defaultAssumeValid)
  else master_ret true.

(** [m_block_tree_db->ReadCheckpointPubKey(strPubKey)]: [None] when the
    read returns false. *)
Definition txdb_ReadCheckpointPubKey : MM (option string) :=
  fun ms => MReturns (db_pubkey (key_table ms)) ms.

(** [m_block_tree_db->WriteCheckpointPubKey(strMasterPubKey)] *)
Definition txdb_WriteCheckpointPubKey (k : string) : MM bool :=
  fun ms =>
    let '(ok, t) := db_WriteCheckpointPubKey k (key_table ms) in
    MReturns ok (set_key_table t ms).

(** Verify sync checkpoint master pubkey and reset sync checkpoint if
    changed. *)
Definition CheckCheckpointPubKey : MM bool :=
  let strMasterPubKey := checkpointPubKey in
  let! r := txdb_ReadCheckpointPubKey in
  if match r with
     | None => true
     | Some strPubKey => negb (String.eqb strPubKey strMasterPubKey)
     end
  then
    (* write checkpoint master key to db *)
    let! ok := ResetSyncCheckpoint in
    if negb ok then master_error ErrPubKeyReset
    else
      let! ok := txdb_WriteCheckpointPubKey strMasterPubKey in
      if negb ok then master_error ErrPubKeyWrite
      else
        lift ForceFlushStateToDisk;;
        master_ret true
  else master_ret true.

Definition SetCheckpointPrivKey (strPrivKey : string) : MM bool :=
  match DecodeSecret strPrivKey with
  | None => master_ret false
  | Some _ =>
    master_modify (set_strMasterPrivKey strPrivKey);;
    master_ret true
  end.

(** The message object after [CheckSignature], the only place that writes
    it: the hash is the decoded one when the signature verifies. *)
Definition after_CheckSignature (this : CSyncCheckpoint) : CSyncCheckpoint :=
  if VerifyMaster (vchMsg this) (vchSig this) then
    match Unserialize (vchMsg this) with
    | Some h => decoded this h
    | None => this
    end
  else this.

(** [connman] is the pointer argument, [None] when P2P is disabled. *)
Definition SendSyncCheckpoint (hashCheckpoint : uint256)
    (connman : option CConnman) : MM bool :=
  match connman with
  | None => master_ret true (* P2P disabled *)
  | Some connman =>
    (* No connections *)
    if (GetNodeCount connman =? 0)%nat then master_ret true
    (* Do not send dummy checkpoint *)
    else if (hashCheckpoint =? uint256_zero)%N then master_ret true
    else
      let vchMsg := SerializeUnsigned hashCheckpoint in
      let! ms := master_get in
      if String.eqb (strMasterPrivKey ms) EmptyString then
        master_error ErrMasterKeyUnavailable
      else
        match DecodeSecret (strMasterPrivKey ms) with
        | None => master_error ErrMasterKeyInvalid
        | Some key =>
          match Sign key vchMsg with
          | None => master_error ErrSign
          | Some vchSig =>
            let checkpoint :=
              {| hashCheckpoint := hashCheckpoint;
                 vchMsg := vchMsg;
                 vchSig := vchSig |} in
            let! ok := lift (ProcessSyncCheckpoint checkpoint) in
            if negb ok then master_error ErrSendProcess
            else
              (* Relay checkpoint *)
              lift (ForEachNode_RelayTo connman
                      (after_CheckSignature checkpoint));;
              master_ret true
          end
        end
  end.

End MasterFunctions.

(** ** Invariants and relations of the checkpoint state *)

(** The pending message is the message of the pending hash. *)
Definition pending_coherent {CChain : Type} (s : Node CChain) : Prop :=
  hashCheckpoint (checkpointMessagePending s) = hashPendingCheckpoint s.

(** The checkpoint in memory is the one in the store. *)
Definition store_in_step {CChain : Type} (s : Node CChain) : Prop :=
  db_checkpoint (m_block_tree_db s) = Some (hashSyncCheckpoint s).

(** From [s] to [s'] the checkpoint stayed, or it moved to a block of the
    index that is in the active chain, is higher, and whose parent links
    reach the old checkpoint at the old height. *)
Definition checkpoint_advanced {CChain : Type} `{!ChainView CChain}
    (s s' : Node CChain) : Prop :=
  hashSyncCheckpoint s' = hashSyncCheckpoint s
  \/ exists pindexOld pindexNew q,
       m_block_index s !! hashSyncCheckpoint s = Some pindexOld
       /\ m_block_index s !! hashSyncCheckpoint s' = Some pindexNew
       /\ nHeight pindexOld < nHeight pindexNew
       /\ trace_to_height (nHeight pindexOld) pindexNew = Some q
       /\ GetBlockHash q = hashSyncCheckpoint s
       /\ Contains (m_chain s) pindexNew = true.

(** The master node [ms] after one more line of [MasterLogLine]. *)
Definition master_logged {CChain : Type} (l : MasterLogLine)
    (ms : MasterNode CChain) : MasterNode CChain :=
  set_master_log (master_log ms ++ [(length (debug_log (base ms)), l)]) ms.

(** The private key is unset or decodes to a valid key. *)
Definition key_usable {CChain : Type} `{!MasterKey} (ms : MasterNode CChain)
  : Prop :=
  strMasterPrivKey ms = EmptyString
  \/ is_Some (DecodeSecret (strMasterPrivKey ms)).

(** The message [SendSyncCheckpoint] builds for [h] with signature [sig]. *)
Definition signed_checkpoint `{!MasterKey} (h : uint256)
    (sig : list Byte.byte) : CSyncCheckpoint :=
  {| hashCheckpoint := h; vchMsg := SerializeUnsigned h; vchSig := sig |}.

(** ** A concrete master *)

Module MasterExample.
Import Example.

#[export] Instance toy_params : ConsensusParams := {
  defaultAssumeValid := 1%N;
  checkpointPubKey := "master-pub"
}.

(** The only valid secret is "master-priv"; its signature of a payload is
    the payload reversed, which [Example.toy_codec] verifies. *)
#[export] Instance toy_key : MasterKey := {
  CKey := unit;
  DecodeSecret k := if String.eqb k "master-priv" then Some tt else None;
  Sign _ msg := Some (rev msg);
  SerializeUnsigned h :=
    match Byte.of_N h with
    | Some b => [b]
    | None => []
    end
}.

#[export] Instance toy_connman : ConnmanView := {
  GetNodeCount c := length (vNodes c)
}.

Definition master (n : Node (list CBlockIndex)) (key : string)
    (stored : option string) (refuse : bool)
  : MasterNode (list CBlockIndex) :=
  {| base := n;
     strMasterPrivKey := key;
     key_table := {| db_pubkey := stored; db_pubkey_failing := refuse |};
     master_log := [] |}.

Definition peers : CConnman := mkConnman [10%nat; 11%nat].

(** The master with its key, checkpoint at A, active chain G, A, B, C. *)
Definition master_ABC : MasterNode (list CBlockIndex) :=
  master node_ABC "master-priv" (Some "master-pub") false.

(** The same with the active chain ending at B. *)
Definition master_AB : MasterNode (list CBlockIndex) :=
  master node_AB "master-priv" (Some "master-pub") false.

(** A node that starts with the key of another network in its store. *)
Definition master_old_key : MasterNode (list CBlockIndex) :=
  master node_ABC "" (Some "old-pub") false.

(** The same with a store that refuses the checkpoint, and with one that
    refuses the key only. *)
Definition master_old_key_failing : MasterNode (list CBlockIndex) :=
  master node_ABC_failing "" (Some "old-pub") false.

Definition master_old_key_refused : MasterNode (list CBlockIndex) :=
  master node_ABC "" (Some "old-pub") true.

(** A master whose key does not decode. *)
Definition master_bad_key : MasterNode (list CBlockIndex) :=
  master node_ABC "not-a-key" (Some "master-pub") false.

(** A child of the tip C and a block at height 1, both new to the index. *)
Definition D := mkBlockIndex 9%N 4 (Some C).
Definition Y := mkBlockIndex 10%N 1 (Some G).

End MasterExample.

Ltac master_run :=
  cbv beta iota delta
    [master_bind master_ret master_get master_modify master_error lift
     master_logged].

(** * Properties *)

Ltac run :=
  cbv beta iota delta
    [bind get modify ret error LogPrintf stop assert logged].

Section WalkProperties.

(** The walk to a height stops at an entry of the ancestry that is not above
    that height, and every entry passed on the way is above it. *)
Lemma trace_to_height_stops h pindex q :
  trace_to_height h pindex = Some q ->
  q ∈ ancestry pindex /\ nHeight q <= h.
Proof.
  induction pindex as [hb n|hb n p IH] using CBlockIndex_chain_ind;
    simpl; destruct (Z.gtb_spec n h); try discriminate.
  - intros [= <-]. split; [left | simpl; lia].
  - intros Hq. destruct (IH Hq) as [Hin Hle]. split; [by right | done].
  - intros [= <-]. split; [left | simpl; lia].
Qed.

(** It fails exactly when the whole ancestry is above the height. *)
Lemma trace_to_height_None h pindex :
  trace_to_height h pindex = None <->
  forall q, q ∈ ancestry pindex -> h < nHeight q.
Proof.
  induction pindex as [hb n|hb n p IH] using CBlockIndex_chain_ind;
    simpl; destruct (Z.gtb_spec n h).
  - split; [|done]. intros _ q ->%list_elem_of_singleton. simpl. lia.
  - split; [done|]. intros Hall.
    specialize (Hall (mkBlockIndex hb n None)). simpl in Hall.
    ospecialize (Hall _); [left | lia].
  - rewrite IH. split.
    + intros Hall q [->|Hq]%elem_of_cons; [simpl; lia | by apply Hall].
    + intros Hall q Hq. apply Hall. by right.
  - split; [done|]. intros Hall.
    specialize (Hall (mkBlockIndex hb n (Some p))). simpl in Hall.
    ospecialize (Hall _); [left | lia].
Qed.

(** Where heights are linked, the walk from an entry at or above height [h]
    finds the ancestor whose height is [h]. *)
Lemma trace_to_height_ancestor_at h pindex :
  heights_linked pindex -> h <= nHeight pindex ->
  trace_to_height h pindex = ancestor_at h pindex.
Proof.
  induction pindex as [hb n|hb n p IH] using CBlockIndex_chain_ind;
    simpl; intros Hl Hh.
  - destruct (Z.gtb_spec n h), (Z.eqb_spec n h); try lia; done.
  - destruct Hl as [Hp Hl]. simpl in Hp.
    destruct (Z.gtb_spec n h), (Z.eqb_spec n h); try lia; try done.
    apply IH; [done | lia].
Qed.

Lemma ancestor_at_height h pindex q :
  ancestor_at h pindex = Some q -> q ∈ ancestry pindex /\ nHeight q = h.
Proof.
  induction pindex as [hb n|hb n p IH] using CBlockIndex_chain_ind;
    simpl; destruct (Z.eqb_spec n h); try discriminate.
  - intros [= <-]. split; [left | done].
  - intros [= <-]. split; [left | done].
  - intros Hq. destruct (IH Hq). split; [by right | done].
Qed.

End WalkProperties.

Section ValidateProperties.
Context {CChain : Type} `{!ChainView CChain} `{!MessageCodec}.
Implicit Types (s : Node CChain) (h : uint256).

(** The two branches of [ValidateSyncCheckpoint] once both hashes are found
    in the block index. *)
Lemma ValidateSyncCheckpoint_older s h pindexSync pindexRecv :
  m_block_index s !! hashSyncCheckpoint s = Some pindexSync ->
  m_block_index s !! h = Some pindexRecv ->
  nHeight pindexRecv <= nHeight pindexSync ->
  ValidateSyncCheckpoint h s =
    if Contains (m_chain s) pindexRecv then Returns false s
    else Returns false
           (logged (ErrConflicting h (hashSyncCheckpoint s))
              (set_hashInvalidCheckpoint h s)).
Proof.
  intros Hsync Hrecv Hle.
  unfold ValidateSyncCheckpoint. run. rewrite Hsync, Hrecv.
  destruct (Z.leb_spec (nHeight pindexRecv) (nHeight pindexSync)); [|lia].
  by destruct (Contains (m_chain s) pindexRecv).
Qed.

Lemma ValidateSyncCheckpoint_newer s h pindexSync pindexRecv :
  m_block_index s !! hashSyncCheckpoint s = Some pindexSync ->
  m_block_index s !! h = Some pindexRecv ->
  nHeight pindexSync < nHeight pindexRecv ->
  ValidateSyncCheckpoint h s =
    match trace_to_height (nHeight pindexSync) pindexRecv with
    | None => Returns false (logged ErrPprev2Null s)
    | Some pindex =>
      if (GetBlockHash pindex =? hashSyncCheckpoint s)%N
      then Returns true s
      else Returns false
             (logged (ErrNotDescendant h (hashSyncCheckpoint s))
                (set_hashInvalidCheckpoint h s))
    end.
Proof.
  intros Hsync Hrecv Hlt.
  unfold ValidateSyncCheckpoint. run. rewrite Hsync, Hrecv.
  destruct (Z.leb_spec (nHeight pindexRecv) (nHeight pindexSync)); [lia|].
  destruct (trace_to_height _ _) as [pindex|]; [|done].
  by destruct (GetBlockHash pindex =? hashSyncCheckpoint s)%N.
Qed.

(** C1.  When the received checkpoint is not above the current one (both in
    the block index), [ValidateSyncCheckpoint] returns [false] in both
    cases.  If the active chain does not contain the received entry it
    records the hash in [hashInvalidCheckpoint] and logs the conflict; if
    the chain contains it nothing changes at all (the checkpoint is
    ignored).  The conflict is reported exactly when the entry is not
    contained. *)
Theorem ValidateSyncCheckpoint_not_above s h pindexSync pindexRecv :
  m_block_index s !! hashSyncCheckpoint s = Some pindexSync ->
  m_block_index s !! h = Some pindexRecv ->
  nHeight pindexRecv <= nHeight pindexSync ->
  (Contains (m_chain s) pindexRecv = false ->
   ValidateSyncCheckpoint h s =
     Returns false
       (logged (ErrConflicting h (hashSyncCheckpoint s))
          (set_hashInvalidCheckpoint h s)))
  /\ (Contains (m_chain s) pindexRecv = true ->
      ValidateSyncCheckpoint h s = Returns false s)
  /\ ((exists s',
         ValidateSyncCheckpoint h s = Returns false s'
         /\ hashInvalidCheckpoint s' = h
         /\ debug_log s' =
              debug_log s ++ [ErrConflicting h (hashSyncCheckpoint s)])
      <-> Contains (m_chain s) pindexRecv = false).
Proof.
  intros Hsync Hrecv Hle.
  pose proof (ValidateSyncCheckpoint_older s h _ _ Hsync Hrecv Hle) as Hrun.
  rewrite Hrun. repeat split.
  - by intros ->.
  - by intros ->.
  - destruct (Contains (m_chain s) pindexRecv); [|done].
    intros (s' & [= <-] & _ & Hlog).
    apply (f_equal length) in Hlog. rewrite length_app in Hlog.
    simpl in Hlog. lia.
  - intros ->. eexists. split; [done|]. by split.
Qed.

(** C2.  When the received checkpoint is above the current one,
    [ValidateSyncCheckpoint] follows the parent links of the received entry
    down to the height of the current checkpoint.  If the links end before
    that height it logs the structure failure and returns [false]; if the
    entry reached carries the hash of the current checkpoint it returns
    [true] and changes nothing; otherwise it records the received hash as
    invalid, logs that it is not a descendant and returns [false].  It
    returns [true] exactly in the second case, and where heights are linked
    the entry reached is the ancestor at the height of the current
    checkpoint.  The three outcomes are also stated field by field: after a
    rejection as not a descendant [hashInvalidCheckpoint] is the received
    hash and the log ends with the line naming both hashes; after a
    structure failure and after an acceptance [hashInvalidCheckpoint] has
    its old value. *)
Theorem ValidateSyncCheckpoint_above s h pindexSync pindexRecv :
  m_block_index s !! hashSyncCheckpoint s = Some pindexSync ->
  m_block_index s !! h = Some pindexRecv ->
  nHeight pindexSync < nHeight pindexRecv ->
  match trace_to_height (nHeight pindexSync) pindexRecv with
  | None =>
    ValidateSyncCheckpoint h s = Returns false (logged ErrPprev2Null s)
  | Some pindex =>
    if (GetBlockHash pindex =? hashSyncCheckpoint s)%N
    then ValidateSyncCheckpoint h s = Returns true s
    else ValidateSyncCheckpoint h s =
           Returns false
             (logged (ErrNotDescendant h (hashSyncCheckpoint s))
                (set_hashInvalidCheckpoint h s))
  end
  /\ (forall pindex,
        trace_to_height (nHeight pindexSync) pindexRecv = Some pindex ->
        GetBlockHash pindex <> hashSyncCheckpoint s ->
        exists s',
          ValidateSyncCheckpoint h s = Returns false s'
          /\ hashInvalidCheckpoint s' = h
          /\ debug_log s' =
               debug_log s ++ [ErrNotDescendant h (hashSyncCheckpoint s)]
          /\ hashSyncCheckpoint s' = hashSyncCheckpoint s
          /\ hashPendingCheckpoint s' = hashPendingCheckpoint s
          /\ m_block_tree_db s' = m_block_tree_db s)
  /\ (trace_to_height (nHeight pindexSync) pindexRecv = None ->
      exists s',
        ValidateSyncCheckpoint h s = Returns false s'
        /\ hashInvalidCheckpoint s' = hashInvalidCheckpoint s
        /\ debug_log s' = debug_log s ++ [ErrPprev2Null]
        /\ hashSyncCheckpoint s' = hashSyncCheckpoint s)
  /\ (forall pindex,
        trace_to_height (nHeight pindexSync) pindexRecv = Some pindex ->
        GetBlockHash pindex = hashSyncCheckpoint s ->
        exists s',
          ValidateSyncCheckpoint h s = Returns true s'
          /\ hashInvalidCheckpoint s' = hashInvalidCheckpoint s
          /\ debug_log s' = debug_log s
          /\ s' = s)
  /\ ((exists s', ValidateSyncCheckpoint h s = Returns true s') <->
      exists pindex,
        trace_to_height (nHeight pindexSync) pindexRecv = Some pindex
        /\ GetBlockHash pindex = hashSyncCheckpoint s)
  /\ (trace_to_height (nHeight pindexSync) pindexRecv = None <->
      forall q, q ∈ ancestry pindexRecv -> nHeight pindexSync < nHeight q)
  /\ (heights_linked pindexRecv ->
      trace_to_height (nHeight pindexSync) pindexRecv =
        ancestor_at (nHeight pindexSync) pindexRecv).
Proof.
  intros Hsync Hrecv Hlt.
  pose proof (ValidateSyncCheckpoint_newer s h _ _ Hsync Hrecv Hlt) as Hrun.
  rewrite Hrun. split; [|split; [|split; [|split; [|split; [|split]]]]].
  - destruct (trace_to_height _ _) as [pindex|]; [|done].
    by destruct (GetBlockHash pindex =? hashSyncCheckpoint s)%N.
  - intros pindex -> Hne.
    destruct (N.eqb_spec (GetBlockHash pindex) (hashSyncCheckpoint s));
      [done|].
    eexists. split; [reflexivity|]. by repeat split.
  - intros ->. eexists. split; [reflexivity|]. by repeat split.
  - intros pindex -> Heq. rewrite Heq, N.eqb_refl.
    eexists. split; [reflexivity|]. by repeat split.
  - destruct (trace_to_height _ _) as [pindex|].
    + destruct (N.eqb_spec (GetBlockHash pindex) (hashSyncCheckpoint s)).
      * split; [|by eauto]. intros _. by exists pindex.
      * split; [by intros [s' [=]]|]. by intros (q & [= <-] & Hq).
    + split; [by intros [s' [=]]|]. by intros (q & [=] & _).
  - apply trace_to_height_None.
  - intros Hl. apply trace_to_height_ancestor_at; [done | lia].
Qed.

End ValidateProperties.

Section CommitProperties.
Context {CChain : Type} `{!ChainView CChain} `{!MessageCodec}.
Implicit Types (s : Node CChain) (h : uint256) (this : CSyncCheckpoint).

(** [ValidateSyncCheckpoint] returns [true] only without touching the
    state. *)
Lemma ValidateSyncCheckpoint_true h s s' :
  ValidateSyncCheckpoint h s = Returns true s' -> s' = s.
Proof.
  unfold ValidateSyncCheckpoint. run.
  destruct (m_block_index s !! hashSyncCheckpoint s) as [pS|]; [|done].
  destruct (m_block_index s !! h) as [pR|]; [|done].
  destruct (nHeight pR <=? nHeight pS).
  - by destruct (Contains (m_chain s) pR).
  - destruct (trace_to_height _ _) as [q|]; [|done].
    destruct (GetBlockHash q =? hashSyncCheckpoint s)%N; simpl; congruence.
Qed.

(** Whatever it returns, it writes only [hashInvalidCheckpoint] and the
    debug log, and it always returns. *)
Lemma ValidateSyncCheckpoint_frame h s :
  exists b s',
    ValidateSyncCheckpoint h s = Returns b s'
    /\ hashSyncCheckpoint s' = hashSyncCheckpoint s
    /\ hashPendingCheckpoint s' = hashPendingCheckpoint s
    /\ checkpointMessage s' = checkpointMessage s
    /\ checkpointMessagePending s' = checkpointMessagePending s
    /\ strCheckpointWarning s' = strCheckpointWarning s
    /\ m_block_index s' = m_block_index s
    /\ m_chain s' = m_chain s
    /\ m_block_tree_db s' = m_block_tree_db s
    /\ nFlushes s' = nFlushes s
    /\ g_connman s' = g_connman s
    /\ relayed s' = relayed s.
Proof.
  unfold ValidateSyncCheckpoint. run.
  destruct (m_block_index s !! hashSyncCheckpoint s) as [pS|];
    [|by eexists _, _].
  destruct (m_block_index s !! h) as [pR|]; [|by eexists _, _].
  destruct (nHeight pR <=? nHeight pS).
  - destruct (Contains (m_chain s) pR); by eexists _, _.
  - destruct (trace_to_height _ _) as [q|]; [|by eexists _, _].
    destruct (GetBlockHash q =? hashSyncCheckpoint s)%N; by eexists _, _.
Qed.

(** The state after a successful [WriteSyncCheckpoint h]. *)
Lemma WriteSyncCheckpoint_healthy h s :
  db_failing (m_block_tree_db s) = false ->
  WriteSyncCheckpoint h s =
    Returns true
      (set_hashSyncCheckpoint h
         (set_nFlushes (S (nFlushes s))
            (set_block_tree_db
               {| db_checkpoint := Some h;
                  db_writes := h :: db_writes (m_block_tree_db s);
                  db_failing := false |} s))).
Proof.
  intros Hdb. unfold WriteSyncCheckpoint, txdb_WriteSyncCheckpoint,
    db_WriteSyncCheckpoint, ForceFlushStateToDisk. run.
  by rewrite Hdb.
Qed.

Lemma WriteSyncCheckpoint_failing h s :
  db_failing (m_block_tree_db s) = true ->
  WriteSyncCheckpoint h s = Returns false (logged (ErrWriteTxdb h) s).
Proof.
  intros Hdb. unfold WriteSyncCheckpoint, txdb_WriteSyncCheckpoint,
    db_WriteSyncCheckpoint. run.
  rewrite Hdb. by destruct s.
Qed.

(** C5.  [WriteSyncCheckpoint] writes the store first.  If the store refuses
    the write, the function logs the failure and returns [false] with
    [hashSyncCheckpoint] and the store as they were; if the store accepts it,
    the function returns [true] with the hash both stored and in memory.  At
    every point at which the function can be interrupted, the value in
    memory is still the old one or the store already holds the new one. *)
Theorem WriteSyncCheckpoint_store_before_memory s h :
  (db_failing (m_block_tree_db s) = true ->
   exists s',
     WriteSyncCheckpoint h s = Returns false s'
     /\ hashSyncCheckpoint s' = hashSyncCheckpoint s
     /\ m_block_tree_db s' = m_block_tree_db s
     /\ debug_log s' = debug_log s ++ [ErrWriteTxdb h])
  /\ (db_failing (m_block_tree_db s) = false ->
      exists s',
        WriteSyncCheckpoint h s = Returns true s'
        /\ hashSyncCheckpoint s' = h
        /\ db_checkpoint (m_block_tree_db s') = Some h
        /\ db_writes (m_block_tree_db s') =
             h :: db_writes (m_block_tree_db s))
  /\ (forall n, exists b s',
        WriteSyncCheckpoint_upto n h s = Returns b s'
        /\ (hashSyncCheckpoint s' = hashSyncCheckpoint s
            \/ db_checkpoint (m_block_tree_db s') = Some h))
  /\ WriteSyncCheckpoint_upto 3 h s = WriteSyncCheckpoint h s.
Proof.
  split; [|split; [|split]].
  - intros Hdb. rewrite (WriteSyncCheckpoint_failing _ _ Hdb).
    by eexists.
  - intros Hdb. rewrite (WriteSyncCheckpoint_healthy _ _ Hdb).
    by eexists.
  - intros [|[|[|n]]]; simpl.
    + eexists _, _. split; [done|]. by left.
    + unfold txdb_WriteSyncCheckpoint, db_WriteSyncCheckpoint.
      destruct (db_failing (m_block_tree_db s));
        eexists _, _; (split; [done|]); by left.
    + unfold txdb_WriteSyncCheckpoint, db_WriteSyncCheckpoint,
        ForceFlushStateToDisk. run.
      destruct (db_failing (m_block_tree_db s)); simpl;
        eexists _, _; (split; [done|]); by left.
    + destruct (db_failing (m_block_tree_db s)) eqn:Hdb.
      * rewrite (WriteSyncCheckpoint_failing _ _ Hdb).
        eexists _, _. split; [done|]. by left.
      * rewrite (WriteSyncCheckpoint_healthy _ _ Hdb).
        eexists _, _. split; [done|]. by right.
  - done.
Qed.

(** [ProcessSyncCheckpoint] for a message that verifies, decodes to [h] and
    names a block of the index: what is left is the validation and the
    commit or deferral. *)
Lemma ProcessSyncCheckpoint_known this s h pindex :
  VerifyMaster (vchMsg this) (vchSig this) = true ->
  Unserialize (vchMsg this) = Some h ->
  m_block_index s !! h = Some pindex ->
  ProcessSyncCheckpoint this s =
    match ValidateSyncCheckpoint h s with
    | Stops f => Stops f
    | Returns false s' => Returns false s'
    | Returns true s' =>
      if Contains (m_chain s') pindex then
        match WriteSyncCheckpoint h s' with
        | Stops f => Stops f
        | Returns false s'' => Returns false (logged (ErrProcessWrite h) s'')
        | Returns true s'' =>
          Returns true
            (set_checkpointMessagePending SetNull
               (set_hashPendingCheckpoint uint256_zero
                  (set_checkpointMessage (decoded this h) s'')))
        end
      else
        Returns false
          (logged (LogPending h)
             (set_checkpointMessagePending (decoded this h)
                (set_hashPendingCheckpoint h s')))
    end.
Proof.
  intros Hsig Hdec Hidx.
  unfold ProcessSyncCheckpoint, CheckSignature. run.
  rewrite Hsig, Hdec. simpl. rewrite Hidx.
  destruct (ValidateSyncCheckpoint h s) as [[|] s'|f]; simpl; try done.
  destruct (Contains (m_chain s') pindex); simpl; [|done].
  by destruct (WriteSyncCheckpoint h s') as [[|] s''|f].
Qed.

End CommitProperties.

Section ProcessProperties.
Context {CChain : Type} `{!ChainView CChain} `{!MessageCodec}.
Implicit Types (s : Node CChain) (h : uint256) (this : CSyncCheckpoint).

(** C3, as the code has it.  For a message whose signature verifies, whose
    block is in the index, which passes [ValidateSyncCheckpoint] and whose
    block is in the active chain, and with a store that accepts the write,
    [ProcessSyncCheckpoint] returns [true]: the hash is written to the store
    and becomes [hashSyncCheckpoint], the message becomes
    [checkpointMessage], the pending hash and message are cleared.  The
    function itself relays nothing; that is left to its caller. *)
Theorem ProcessSyncCheckpoint_commits this s h pindex :
  VerifyMaster (vchMsg this) (vchSig this) = true ->
  Unserialize (vchMsg this) = Some h ->
  m_block_index s !! h = Some pindex ->
  ValidateSyncCheckpoint h s = Returns true s ->
  Contains (m_chain s) pindex = true ->
  db_failing (m_block_tree_db s) = false ->
  exists s',
    ProcessSyncCheckpoint this s = Returns true s'
    /\ hashSyncCheckpoint s' = h
    /\ db_checkpoint (m_block_tree_db s') = Some h
    /\ db_writes (m_block_tree_db s') = h :: db_writes (m_block_tree_db s)
    /\ checkpointMessage s' = decoded this h
    /\ hashPendingCheckpoint s' = uint256_zero
    /\ checkpointMessagePending s' = SetNull
    /\ relayed s' = relayed s.
Proof.
  intros Hsig Hdec Hidx Hval Hin Hdb.
  rewrite (ProcessSyncCheckpoint_known _ _ _ _ Hsig Hdec Hidx), Hval, Hin.
  rewrite (WriteSyncCheckpoint_healthy _ _ Hdb).
  eexists. split; [reflexivity|]. by repeat split.
Qed.

(** C6.  For a message whose signature verifies, whose block is in the index
    and which passes [ValidateSyncCheckpoint], but whose block is not in the
    active chain, [ProcessSyncCheckpoint] keeps the hash and the message as
    pending, logs that and returns [false]; the store and
    [hashSyncCheckpoint] are as before. *)
Theorem ProcessSyncCheckpoint_defers this s h pindex :
  VerifyMaster (vchMsg this) (vchSig this) = true ->
  Unserialize (vchMsg this) = Some h ->
  m_block_index s !! h = Some pindex ->
  ValidateSyncCheckpoint h s = Returns true s ->
  Contains (m_chain s) pindex = false ->
  exists s',
    ProcessSyncCheckpoint this s = Returns false s'
    /\ hashPendingCheckpoint s' = h
    /\ checkpointMessagePending s' = decoded this h
    /\ debug_log s' = debug_log s ++ [LogPending h]
    /\ m_block_tree_db s' = m_block_tree_db s
    /\ hashSyncCheckpoint s' = hashSyncCheckpoint s
    /\ checkpointMessage s' = checkpointMessage s.
Proof.
  intros Hsig Hdec Hidx Hval Hout.
  rewrite (ProcessSyncCheckpoint_known _ _ _ _ Hsig Hdec Hidx), Hval, Hout.
  eexists. split; [reflexivity|]. by repeat split.
Qed.

(** C8, as the code has it.  When the validation of a verified message for
    a known block finds a conflict (the block is not above the current
    checkpoint and not in the active chain, or it is above and the entry
    reached at the height of the current checkpoint is another block),
    [ProcessSyncCheckpoint] returns [false], [hashInvalidCheckpoint] holds
    the hash of the message and the debug log ends with a line naming both
    hashes.  [strCheckpointWarning] keeps its value: nothing in this file
    assigns it. *)
Theorem ProcessSyncCheckpoint_conflict this s h pindexSync pindexRecv :
  VerifyMaster (vchMsg this) (vchSig this) = true ->
  Unserialize (vchMsg this) = Some h ->
  m_block_index s !! hashSyncCheckpoint s = Some pindexSync ->
  m_block_index s !! h = Some pindexRecv ->
  (nHeight pindexRecv <= nHeight pindexSync
   /\ Contains (m_chain s) pindexRecv = false)
  \/ (nHeight pindexSync < nHeight pindexRecv
      /\ exists q,
           trace_to_height (nHeight pindexSync) pindexRecv = Some q
           /\ GetBlockHash q <> hashSyncCheckpoint s) ->
  exists s' l,
    ProcessSyncCheckpoint this s = Returns false s'
    /\ (l = ErrConflicting h (hashSyncCheckpoint s)
        \/ l = ErrNotDescendant h (hashSyncCheckpoint s))
    /\ debug_log s' = debug_log s ++ [l]
    /\ hashInvalidCheckpoint s' = h
    /\ strCheckpointWarning s' = strCheckpointWarning s
    /\ hashSyncCheckpoint s' = hashSyncCheckpoint s
    /\ m_block_tree_db s' = m_block_tree_db s.
Proof.
  intros Hsig Hdec Hsync Hrecv Hcase.
  rewrite (ProcessSyncCheckpoint_known _ _ _ _ Hsig Hdec Hrecv).
  destruct Hcase as [[Hle Hout]|[Hlt (q & Hq & Hneq)]].
  - rewrite (ValidateSyncCheckpoint_older s h _ _ Hsync Hrecv Hle), Hout.
    eexists _, _. split; [reflexivity|]. split; [by left|]. by repeat split.
  - rewrite (ValidateSyncCheckpoint_newer s h _ _ Hsync Hrecv Hlt), Hq.
    destruct (N.eqb_spec (GetBlockHash q) (hashSyncCheckpoint s)); [done|].
    eexists _, _. split; [reflexivity|]. split; [by right|]. by repeat split.
Qed.

(** Every way [ProcessSyncCheckpoint] can return [true]. *)
Lemma ProcessSyncCheckpoint_true_inv this s s1 :
  ProcessSyncCheckpoint this s = Returns true s1 ->
  exists h pindex,
    VerifyMaster (vchMsg this) (vchSig this) = true
    /\ Unserialize (vchMsg this) = Some h
    /\ m_block_index s !! h = Some pindex
    /\ Contains (m_chain s) pindex = true
    /\ m_block_index s1 = m_block_index s
    /\ m_chain s1 = m_chain s
    /\ hashSyncCheckpoint s1 = h.
Proof.
  destruct (VerifyMaster (vchMsg this) (vchSig this)) eqn:Hsig;
    [|by unfold ProcessSyncCheckpoint, CheckSignature; run; rewrite Hsig].
  destruct (Unserialize (vchMsg this)) as [h|] eqn:Hdec;
    [|by unfold ProcessSyncCheckpoint, CheckSignature; run;
         rewrite Hsig, Hdec].
  destruct (m_block_index s !! h) as [pindex|] eqn:Hidx;
    [|by unfold ProcessSyncCheckpoint, CheckSignature; run;
         rewrite Hsig, Hdec; simpl; rewrite Hidx].
  rewrite (ProcessSyncCheckpoint_known _ _ _ _ Hsig Hdec Hidx).
  destruct (ValidateSyncCheckpoint h s) as [[|] s'|f] eqn:Hval; [|done..].
  apply ValidateSyncCheckpoint_true in Hval as ->.
  destruct (Contains (m_chain s) pindex) eqn:Hin; [|done].
  destruct (db_failing (m_block_tree_db s)) eqn:Hdb.
  - by rewrite (WriteSyncCheckpoint_failing _ _ Hdb).
  - rewrite (WriteSyncCheckpoint_healthy _ _ Hdb). intros [= <-].
    by exists h, pindex.
Qed.

End ProcessProperties.

Section AcceptPendingProperties.
Context {CChain : Type} `{!ChainView CChain} `{!MessageCodec}.
Implicit Types (s : Node CChain) (h : uint256).

(** [AcceptPendingSyncCheckpoint] with a pending hash found in the block
    index. *)
Lemma AcceptPendingSyncCheckpoint_have s pindex :
  hashPendingCheckpoint s <> uint256_zero ->
  m_block_index s !! hashPendingCheckpoint s = Some pindex ->
  AcceptPendingSyncCheckpoint s =
    match ValidateSyncCheckpoint (hashPendingCheckpoint s) s with
    | Stops f => Stops f
    | Returns false s0 =>
      Returns false
        (set_checkpointMessagePending SetNull
           (set_hashPendingCheckpoint uint256_zero s0))
    | Returns true _ =>
      if Contains (m_chain s) pindex then
        match WriteSyncCheckpoint (hashPendingCheckpoint s) s with
        | Stops f => Stops f
        | Returns false s1 =>
          Returns false
            (logged (ErrAcceptPendingWrite (hashPendingCheckpoint s)) s1)
        | Returns true s1 =>
          let m := checkpointMessagePending s in
          let s2 :=
            set_checkpointMessagePending SetNull
              (set_checkpointMessage m
                 (set_hashPendingCheckpoint uint256_zero s1)) in
          Returns true
            (match g_connman s with
             | Some connman =>
               if IsNull m then s2
               else set_relayed
                      (relayed s ++ map (fun n => (n, m)) (vNodes connman))
                      s2
             | None => s2
             end)
        end
      else Returns false s
    end.
Proof.
  intros Hnz Hidx. unfold AcceptPendingSyncCheckpoint. run.
  destruct (N.eqb_spec (hashPendingCheckpoint s) uint256_zero); [done|].
  rewrite Hidx. rewrite bool_decide_eq_true_2 by eauto. simpl.
  destruct (ValidateSyncCheckpoint _ s) as [[|] s0|f] eqn:Hval;
    simpl; [|done..].
  apply ValidateSyncCheckpoint_true in Hval as ->. rewrite Hidx.
  destruct (Contains (m_chain s) pindex); simpl; [|done].
  destruct (db_failing (m_block_tree_db s)) eqn:Hdb.
  - by rewrite (WriteSyncCheckpoint_failing _ _ Hdb).
  - rewrite (WriteSyncCheckpoint_healthy _ _ Hdb). simpl.
    destruct (g_connman s) as [connman|]; simpl; [|done].
    by destruct (IsNull (checkpointMessagePending s)).
Qed.

(** C7, as the code has it.  With a pending checkpoint whose block is in the
    index: if it passes [ValidateSyncCheckpoint], its block is in the active
    chain and the store accepts the write, [AcceptPendingSyncCheckpoint]
    returns [true], the hash is written to the store once and becomes
    [hashSyncCheckpoint], the pending message becomes [checkpointMessage],
    the pending hash and message are cleared, and the message goes to every
    connected peer (when there is a connection manager and the message is
    not null).  If the store refuses the write, nothing is committed and the
    checkpoint stays pending.  If [ValidateSyncCheckpoint] returns [false],
    the pending hash and message are cleared and the store is not
    written. *)
Theorem AcceptPendingSyncCheckpoint_commits_or_drops s pindex :
  hashPendingCheckpoint s <> uint256_zero ->
  m_block_index s !! hashPendingCheckpoint s = Some pindex ->
  (ValidateSyncCheckpoint (hashPendingCheckpoint s) s = Returns true s ->
   Contains (m_chain s) pindex = true ->
   db_failing (m_block_tree_db s) = false ->
   exists s',
     AcceptPendingSyncCheckpoint s = Returns true s'
     /\ db_writes (m_block_tree_db s') =
          hashPendingCheckpoint s :: db_writes (m_block_tree_db s)
     /\ db_checkpoint (m_block_tree_db s') = Some (hashPendingCheckpoint s)
     /\ hashSyncCheckpoint s' = hashPendingCheckpoint s
     /\ checkpointMessage s' = checkpointMessagePending s
     /\ hashPendingCheckpoint s' = uint256_zero
     /\ checkpointMessagePending s' = SetNull
     /\ relayed s' =
          relayed s ++
          match g_connman s with
          | Some connman =>
            if IsNull (checkpointMessagePending s) then []
            else map (fun n => (n, checkpointMessagePending s))
                   (vNodes connman)
          | None => []
          end)
  /\ (ValidateSyncCheckpoint (hashPendingCheckpoint s) s = Returns true s ->
      Contains (m_chain s) pindex = true ->
      db_failing (m_block_tree_db s) = true ->
      exists s',
        AcceptPendingSyncCheckpoint s = Returns false s'
        /\ m_block_tree_db s' = m_block_tree_db s
        /\ hashSyncCheckpoint s' = hashSyncCheckpoint s
        /\ hashPendingCheckpoint s' = hashPendingCheckpoint s
        /\ checkpointMessagePending s' = checkpointMessagePending s
        /\ relayed s' = relayed s)
  /\ (forall s0,
        ValidateSyncCheckpoint (hashPendingCheckpoint s) s =
          Returns false s0 ->
        exists s',
          AcceptPendingSyncCheckpoint s = Returns false s'
          /\ hashPendingCheckpoint s' = uint256_zero
          /\ checkpointMessagePending s' = SetNull
          /\ m_block_tree_db s' = m_block_tree_db s
          /\ hashSyncCheckpoint s' = hashSyncCheckpoint s
          /\ relayed s' = relayed s).
Proof.
  intros Hnz Hidx.
  rewrite (AcceptPendingSyncCheckpoint_have _ _ Hnz Hidx).
  split; [|split].
  - intros -> -> Hdb. rewrite (WriteSyncCheckpoint_healthy _ _ Hdb).
    eexists. split; [reflexivity|].
    destruct (g_connman s) as [connman|]; simpl.
    + destruct (IsNull (checkpointMessagePending s)); simpl;
        rewrite ?app_nil_r; by repeat split.
    + rewrite app_nil_r. by repeat split.
  - intros -> -> Hdb. rewrite (WriteSyncCheckpoint_failing _ _ Hdb).
    eexists. split; [reflexivity|]. by repeat split.
  - intros s0 Hval.
    destruct (ValidateSyncCheckpoint_frame (hashPendingCheckpoint s) s)
      as (b & s0' & Hval' & Hf).
    rewrite Hval in Hval'. injection Hval' as <- <-. rewrite Hval.
    eexists. split; [reflexivity|]. simpl. by intuition.
Qed.

End AcceptPendingProperties.

Section IdempotenceProperties.
Context {CChain : Type} `{!ChainView CChain} `{!MessageCodec}.
Implicit Types (s : Node CChain) (h : uint256) (this : CSyncCheckpoint).

(** A verified message for the current checkpoint, whose block is in the
    active chain, is ignored without a trace. *)
Lemma ProcessSyncCheckpoint_current this s pindex :
  VerifyMaster (vchMsg this) (vchSig this) = true ->
  Unserialize (vchMsg this) = Some (hashSyncCheckpoint s) ->
  m_block_index s !! hashSyncCheckpoint s = Some pindex ->
  Contains (m_chain s) pindex = true ->
  ProcessSyncCheckpoint this s = Returns false s.
Proof.
  intros Hsig Hdec Hidx Hin.
  rewrite (ProcessSyncCheckpoint_known _ _ _ _ Hsig Hdec Hidx).
  rewrite (ValidateSyncCheckpoint_older s _ _ _ Hidx Hidx); [|lia].
  by rewrite Hin.
Qed.

(** Every way [AcceptPendingSyncCheckpoint] can return [true]. *)
Lemma AcceptPendingSyncCheckpoint_true_inv s s1 :
  AcceptPendingSyncCheckpoint s = Returns true s1 ->
  exists pindex,
    m_block_index s !! hashPendingCheckpoint s = Some pindex
    /\ Contains (m_chain s) pindex = true
    /\ m_block_index s1 = m_block_index s
    /\ m_chain s1 = m_chain s
    /\ hashSyncCheckpoint s1 = hashPendingCheckpoint s.
Proof.
  destruct (N.eqb_spec (hashPendingCheckpoint s) uint256_zero) as [Hz|Hnz].
  { unfold AcceptPendingSyncCheckpoint. run.
    by rewrite Hz, N.eqb_refl. }
  destruct (m_block_index s !! hashPendingCheckpoint s) as [pindex|]
    eqn:Hidx.
  2:{ unfold AcceptPendingSyncCheckpoint. run. rewrite Hidx.
      rewrite bool_decide_eq_false_2 by (by intros [? [=]]).
      by rewrite andb_false_r. }
  rewrite (AcceptPendingSyncCheckpoint_have _ _ Hnz Hidx).
  destruct (ValidateSyncCheckpoint _ s) as [[|] s0|f]; [|done..].
  destruct (Contains (m_chain s) pindex) eqn:Hin; [|done].
  destruct (db_failing (m_block_tree_db s)) eqn:Hdb.
  - by rewrite (WriteSyncCheckpoint_failing _ _ Hdb).
  - rewrite (WriteSyncCheckpoint_healthy _ _ Hdb). intros [= <-].
    exists pindex. split; [done|]. split; [done|].
    destruct (g_connman s) as [connman|]; [|done].
    by destruct (IsNull (checkpointMessagePending s)).
Qed.

(** C9.  Once a message has been committed, by [ProcessSyncCheckpoint] or as
    the pending message by [AcceptPendingSyncCheckpoint], processing the
    same message again returns [false] and leaves the whole state of the
    node as it is, debug log included, however often it is repeated. *)
Theorem ProcessSyncCheckpoint_committed_again this s s1 :
  committed this s s1 ->
  ProcessSyncCheckpoint this s1 = Returns false s1
  /\ forall n,
       process_repeatedly this n s1 = s1
       /\ ProcessSyncCheckpoint this (process_repeatedly this n s1) =
            Returns false s1.
Proof.
  intros Hcommitted.
  assert (Hagain : ProcessSyncCheckpoint this s1 = Returns false s1).
  { destruct Hcommitted as [Hrun|(Hsig & Hdec & Hrun)].
    - apply ProcessSyncCheckpoint_true_inv in Hrun
        as (h & pindex & Hsig & Hdec & Hidx & Hin & Hidx1 & Hchain1 & Hsync1).
      apply ProcessSyncCheckpoint_current with pindex; [done| | |].
      + by rewrite Hsync1.
      + by rewrite Hsync1, Hidx1.
      + by rewrite Hchain1.
    - apply AcceptPendingSyncCheckpoint_true_inv in Hrun
        as (pindex & Hidx & Hin & Hidx1 & Hchain1 & Hsync1).
      apply ProcessSyncCheckpoint_current with pindex; [done| | |].
      + by rewrite Hsync1.
      + by rewrite Hsync1, Hidx1.
      + by rewrite Hchain1. }
  split; [done|].
  assert (Hfix : forall n, process_repeatedly this n s1 = s1).
  { induction n as [|n IH]; [done|].
    unfold process_repeatedly in *. simpl. by rewrite IH, Hagain. }
  intros n. by rewrite Hfix.
Qed.

End IdempotenceProperties.

Section EnforcementProperties.
Context {CChain : Type} `{!ChainView CChain} `{!MessageCodec}.
Implicit Types (s : Node CChain) (chain : CChain).

Lemma ancestry_height_le pindex q :
  heights_linked pindex -> q ∈ ancestry pindex -> nHeight q <= nHeight pindex.
Proof.
  induction pindex as [hb n|hb n p IH] using CBlockIndex_chain_ind; simpl.
  - intros _ ->%list_elem_of_singleton. done.
  - intros [Hp Hl] [->|Hq]%elem_of_cons; [done|].
    specialize (IH Hl Hq). simpl in *. lia.
Qed.

(** Where heights are linked and the walk starts at or above height [h], the
    entry at which the loop of [CheckSyncCheckpoint] stops is an ancestor at
    or above [h]. *)
Lemma trace_to_chain_stops chain h pindex q :
  heights_linked pindex -> h <= nHeight pindex ->
  trace_to_chain chain h pindex = Some q ->
  q ∈ ancestry pindex /\ h <= nHeight q.
Proof.
  induction pindex as [hb n|hb n p IH] using CBlockIndex_chain_ind;
    simpl; intros Hl Hh.
  - destruct (_ && _); [done|]. intros [= <-]. split; [left | done].
  - destruct Hl as [Hp Hl]. simpl in Hp.
    destruct (Z.gtb_spec n h); simpl.
    + destruct (Contains chain _); simpl.
      * intros [= <-]. split; [left | done].
      * intros Hq. destruct (IH Hl ltac:(lia) Hq). split; [by right | done].
    + intros [= <-]. split; [left | done].
Qed.

(** If some ancestor at or above [h] is in the chain, the loop stops at an
    entry that is in the chain. *)
Lemma trace_to_chain_finds chain h pindex :
  heights_linked pindex -> h <= nHeight pindex ->
  (exists q, q ∈ ancestry pindex /\ h <= nHeight q
             /\ Contains chain q = true) ->
  exists q', trace_to_chain chain h pindex = Some q'
             /\ Contains chain q' = true.
Proof.
  induction pindex as [hb n|hb n p IH] using CBlockIndex_chain_ind;
    simpl; intros Hl Hh (q & Hq & Hhq & Hin).
  - apply list_elem_of_singleton in Hq as ->. rewrite Hin.
    rewrite andb_false_r. by eexists.
  - destruct Hl as [Hp Hl]. simpl in Hp.
    destruct (Contains chain (mkBlockIndex hb n (Some p))) eqn:Hc.
    { rewrite andb_false_r. by eexists. }
    apply elem_of_cons in Hq as [->|Hq]; [congruence|].
    pose proof (ancestry_height_le _ _ Hl Hq) as Hle.
    destruct (Z.gtb_spec n h); simpl; [|lia].
    apply IH; [done | lia | by exists q].
Qed.

(** [CheckSyncCheckpoint] for a block above the checkpoint. *)
Lemma CheckSyncCheckpoint_higher s pindexSync pindexNew :
  m_block_index s !! hashSyncCheckpoint s = Some pindexSync ->
  Contains (m_chain s) pindexSync = true ->
  0 <= nHeight pindexSync ->
  nHeight pindexSync < nHeight pindexNew ->
  CheckSyncCheckpoint (Some pindexNew) s =
    match trace_to_chain (m_chain s) (nHeight pindexSync) pindexNew with
    | None => Returns false (logged ErrPprevNull s)
    | Some pindex =>
      if Contains (m_chain s) pindex then Returns true s
      else Returns false (logged ErrOnlyDescendants s)
    end.
Proof.
  intros Hsync Hin H0 Hlt. unfold CheckSyncCheckpoint.
  destruct (Z.eqb_spec (nHeight pindexNew) 0); [lia|].
  run. rewrite Hsync, Hin.
  destruct (Z.gtb_spec (nHeight pindexNew) (nHeight pindexSync)); [|lia].
  destruct (trace_to_chain _ _ _) as [pindex|]; [|done].
  destruct (Contains (m_chain s) pindex); simpl; [|done].
  destruct (Z.eqb_spec (nHeight pindexNew) (nHeight pindexSync)); [lia|].
  destruct (Z.ltb_spec (nHeight pindexNew) (nHeight pindexSync)); [lia|].
  done.
Qed.

(** C4.  For a block above the current checkpoint (which is in the index and
    in the active chain, as the function asserts), with heights linked along
    its parent links, [CheckSyncCheckpoint] returns [true] exactly when some
    entry of the block's ancestry, the block included, at or above the
    height of the checkpoint is in the active chain.  Otherwise it returns
    [false], with the line "only descendants of checkpoint accepted" when
    the walk did not run out of parent links. *)
Theorem CheckSyncCheckpoint_above_checkpoint s pindexSync pindexNew :
  m_block_index s !! hashSyncCheckpoint s = Some pindexSync ->
  Contains (m_chain s) pindexSync = true ->
  0 <= nHeight pindexSync ->
  nHeight pindexSync < nHeight pindexNew ->
  heights_linked pindexNew ->
  (CheckSyncCheckpoint (Some pindexNew) s = Returns true s <->
   exists q, q ∈ ancestry pindexNew
             /\ nHeight pindexSync <= nHeight q
             /\ Contains (m_chain s) q = true)
  /\ ((forall q, q ∈ ancestry pindexNew ->
                 nHeight pindexSync <= nHeight q ->
                 Contains (m_chain s) q = false) ->
      trace_to_chain (m_chain s) (nHeight pindexSync) pindexNew <> None ->
      CheckSyncCheckpoint (Some pindexNew) s =
        Returns false (logged ErrOnlyDescendants s))
  /\ (trace_to_chain (m_chain s) (nHeight pindexSync) pindexNew = None ->
      CheckSyncCheckpoint (Some pindexNew) s =
        Returns false (logged ErrPprevNull s)).
Proof.
  intros Hsync Hin H0 Hlt Hl.
  rewrite (CheckSyncCheckpoint_higher _ _ _ Hsync Hin H0 Hlt).
  split; [split|split].
  - destruct (trace_to_chain _ _ _) as [q|] eqn:Hq; [|done].
    destruct (Contains (m_chain s) q) eqn:Hc; [|done]. intros _.
    destruct (trace_to_chain_stops (m_chain s) (nHeight pindexSync)
                pindexNew q Hl ltac:(lia) Hq).
    by exists q.
  - intros Hex.
    destruct (trace_to_chain_finds (m_chain s) (nHeight pindexSync)
                pindexNew Hl ltac:(lia) Hex) as (q' & -> & ->).
    done.
  - intros Hnone Hsome.
    destruct (trace_to_chain _ _ _) as [q|] eqn:Hq; [|done].
    destruct (trace_to_chain_stops (m_chain s) (nHeight pindexSync)
                pindexNew q Hl ltac:(lia) Hq) as [Hqa Hqh].
    by rewrite (Hnone q Hqa Hqh).
  - by intros ->.
Qed.

End EnforcementProperties.

Section AutoSelectProperties.
Context {CChain : Type} `{!ChainView CChain}.

Lemma int_of_int64_exact z :
  - 2 ^ 31 <= z < 2 ^ 31 -> int_of_int64 z = z.
Proof.
  intros Hz. unfold int_of_int64.
  rewrite Z.mod_small; lia.
Qed.

Lemma root_height_le pindex :
  heights_linked pindex -> nHeight (root_of pindex) <= nHeight pindex.
Proof.
  induction pindex as [hb n|hb n p IH] using CBlockIndex_chain_ind; simpl.
  - done.
  - intros [Hp Hl]. specialize (IH Hl). simpl in Hp. lia.
Qed.

Lemma root_of_no_parent pindex : pprev (root_of pindex) = None.
Proof.
  by induction pindex as [hb n|hb n p IH] using CBlockIndex_chain_ind.
Qed.

(** The backward search within the range of [int]. *)
Lemma search_backward_spec d T pindex :
  heights_linked pindex -> nHeight (root_of pindex) = 0 ->
  nHeight pindex <= T -> 0 <= d -> T + d < 2 ^ 31 ->
  (d <= T -> T - d <= nHeight pindex ->
   ancestor_at (T - d) pindex = Some (search_backward d T pindex))
  /\ (T < d -> search_backward d T pindex = root_of pindex).
Proof.
  intros Hl Hroot HT Hd Hmax. revert Hl Hroot HT.
  induction pindex as [hb n|hb n p IH] using CBlockIndex_chain_ind;
    simpl; intros Hl Hroot HT.
  - split; [|done]. intros HdT Hlow.
    destruct (Z.eqb_spec n (T - d)); [done | lia].
  - destruct Hl as [Hp Hl]. simpl in Hp.
    pose proof (root_height_le _ Hl) as Hrl.
    unfold int_add. rewrite int_of_int64_exact by lia.
    destruct (IH Hl Hroot ltac:(lia)) as [IHa IHr].
    destruct (Z.gtb_spec (n + d) T).
    + split; [|done]. intros HdT Hlow.
      destruct (Z.eqb_spec n (T - d)); [lia|]. apply IHa; lia.
    + split; [|lia]. intros HdT Hlow.
      destruct (Z.eqb_spec n (T - d)); [done | lia].
Qed.

(** C10, as the code has it.  On a non-empty chain whose tip has height [T]
    and parent links down to a genesis block of height 0, and for a depth
    [d] with [0 <= d] and [T + d] below [2^31] (so that neither the
    conversion to [int] nor the addition leaves the range of [int]),
    [AutoSelectSyncCheckpoint] returns the hash of the ancestor of the tip
    at height [T - d] when [d <= T], and the hash of the genesis block, the
    entry without parent, when [T < d]. *)
Theorem AutoSelectSyncCheckpoint_depth d chain tip :
  Tip chain = Some tip ->
  rooted_at_genesis tip ->
  0 <= d ->
  nHeight tip + d < 2 ^ 31 ->
  (d <= nHeight tip ->
   exists q,
     ancestor_at (nHeight tip - d) tip = Some q
     /\ q ∈ ancestry tip
     /\ nHeight q = nHeight tip - d
     /\ AutoSelectSyncCheckpoint d chain = Some (GetBlockHash q))
  /\ (nHeight tip < d ->
      AutoSelectSyncCheckpoint d chain = Some (GetBlockHash (root_of tip))
      /\ pprev (root_of tip) = None
      /\ nHeight (root_of tip) = 0).
Proof.
  intros Htip [Hl Hroot] Hd Hmax.
  pose proof (root_height_le _ Hl) as Hrl.
  unfold AutoSelectSyncCheckpoint. rewrite Htip.
  rewrite int_of_int64_exact by lia.
  destruct (search_backward_spec d (nHeight tip) tip Hl Hroot
              ltac:(lia) Hd Hmax) as [Ha Hr].
  split.
  - intros HdT. specialize (Ha HdT ltac:(lia)).
    destruct (ancestor_at_height _ _ _ Ha) as [Hin Hh].
    eexists. by repeat split.
  - intros HTd. rewrite (Hr HTd). split; [done|].
    split; [apply root_of_no_parent | done].
Qed.

End AutoSelectProperties.

(** * Further properties of the validation and of the commit *)

Section ValidateEdges.
Context {CChain : Type} `{!ChainView CChain} `{!MessageCodec}.
Implicit Types (s : Node CChain) (h : uint256) (this : CSyncCheckpoint).

(** X1.  A hash that cannot be looked up is refused without a verdict: when
    the current checkpoint is not in the block index,
    [ValidateSyncCheckpoint] logs that and returns [false], whatever the
    received hash is; when only the received hash is missing it logs that
    one.  In both cases [hashInvalidCheckpoint] keeps its value. *)
Theorem ValidateSyncCheckpoint_missing_index s h :
  (m_block_index s !! hashSyncCheckpoint s = None ->
   ValidateSyncCheckpoint h s =
     Returns false (logged (ErrMissingCurrent (hashSyncCheckpoint s)) s))
  /\ (is_Some (m_block_index s !! hashSyncCheckpoint s) ->
      m_block_index s !! h = None ->
      ValidateSyncCheckpoint h s =
        Returns false (logged (ErrMissingReceived h) s)).
Proof.
  split.
  - intros Hsync. unfold ValidateSyncCheckpoint. run. by rewrite Hsync.
  - intros [pS Hsync] Hrecv. unfold ValidateSyncCheckpoint. run.
    by rewrite Hsync, Hrecv.
Qed.

(** X2.  All [ValidateSyncCheckpoint] can do to the node: it always
    returns; with [true] the node is untouched; with [false] the node is
    untouched (an older checkpoint of the active chain), or has one more
    log line, or has [hashInvalidCheckpoint] set to the received hash
    together with a log line that names the conflict. *)
Theorem ValidateSyncCheckpoint_footprint h s :
  exists b s',
    ValidateSyncCheckpoint h s = Returns b s'
    /\ (b = true -> s' = s)
    /\ (s' = s
        \/ (b = false
            /\ (s' = logged (ErrMissingCurrent (hashSyncCheckpoint s)) s
                \/ s' = logged (ErrMissingReceived h) s
                \/ s' = logged ErrPprev2Null s))
        \/ (b = false
            /\ exists l,
                 s' = logged l (set_hashInvalidCheckpoint h s)
                 /\ (l = ErrConflicting h (hashSyncCheckpoint s)
                     \/ l = ErrNotDescendant h (hashSyncCheckpoint s)))).
Proof.
  unfold ValidateSyncCheckpoint. run.
  destruct (m_block_index s !! hashSyncCheckpoint s) as [pS|].
  2:{ eexists _, _. split; [done|]. split; [done|]. right. left. eauto. }
  destruct (m_block_index s !! h) as [pR|].
  2:{ eexists _, _. split; [done|]. split; [done|]. right. left. eauto. }
  destruct (nHeight pR <=? nHeight pS).
  - destruct (Contains (m_chain s) pR); simpl.
    + eexists _, _. split; [done|]. split; [done|]. by left.
    + eexists _, _. split; [done|]. split; [done|]. right. right.
      split; [done|]. eexists. split; [done|]. by left.
  - destruct (trace_to_height _ _) as [q|].
    2:{ eexists _, _. split; [done|]. split; [done|]. right. left. eauto. }
    destruct (GetBlockHash q =? hashSyncCheckpoint s)%N; simpl.
    + eexists _, _. split; [done|]. split; [done|]. by left.
    + eexists _, _. split; [done|]. split; [done|]. right. right.
      split; [done|]. eexists. split; [done|]. by right.
Qed.

(** What [ValidateSyncCheckpoint] has established when it returns [true]. *)
Lemma ValidateSyncCheckpoint_true_inv h s s' :
  ValidateSyncCheckpoint h s = Returns true s' ->
  exists pindexSync pindexRecv q,
    m_block_index s !! hashSyncCheckpoint s = Some pindexSync
    /\ m_block_index s !! h = Some pindexRecv
    /\ nHeight pindexSync < nHeight pindexRecv
    /\ trace_to_height (nHeight pindexSync) pindexRecv = Some q
    /\ GetBlockHash q = hashSyncCheckpoint s.
Proof.
  unfold ValidateSyncCheckpoint. run.
  destruct (m_block_index s !! hashSyncCheckpoint s) as [pS|]; [|done].
  destruct (m_block_index s !! h) as [pR|]; [|done].
  destruct (Z.leb_spec (nHeight pR) (nHeight pS)).
  - by destruct (Contains (m_chain s) pR).
  - destruct (trace_to_height _ _) as [q|] eqn:Hq; [|done].
    destruct (N.eqb_spec (GetBlockHash q) (hashSyncCheckpoint s)); [|done].
    intros _. by exists pS, pR, q.
Qed.

(** [ProcessSyncCheckpoint] by the outcome of the signature check, of the
    decoder and of the lookup. *)
Lemma ProcessSyncCheckpoint_cases this s :
  ProcessSyncCheckpoint this s =
    if VerifyMaster (vchMsg this) (vchSig this) then
      match Unserialize (vchMsg this) with
      | None => Stops StreamException
      | Some h =>
        match m_block_index s !! h with
        | None => Returns false (logged (LogMissingHeaders h) s)
        | Some pindex =>
          match ValidateSyncCheckpoint h s with
          | Stops f => Stops f
          | Returns false s' => Returns false s'
          | Returns true _ =>
            if Contains (m_chain s) pindex then
              if db_failing (m_block_tree_db s) then
                Returns false
                  (logged (ErrProcessWrite h) (logged (ErrWriteTxdb h) s))
              else
                Returns true
                  (set_checkpointMessagePending SetNull
                     (set_hashPendingCheckpoint uint256_zero
                        (set_checkpointMessage (decoded this h)
                           (set_hashSyncCheckpoint h
                              (set_nFlushes (S (nFlushes s))
                                 (set_block_tree_db
                                    {| db_checkpoint := Some h;
                                       db_writes :=
                                         h :: db_writes (m_block_tree_db s);
                                       db_failing := false |} s))))))
            else
              Returns false
                (logged (LogPending h)
                   (set_checkpointMessagePending (decoded this h)
                      (set_hashPendingCheckpoint h s)))
          end
        end
      end
    else Returns false (logged ErrVerifySignature s).
Proof.
  destruct (VerifyMaster (vchMsg this) (vchSig this)) eqn:Hsig;
    [|by unfold ProcessSyncCheckpoint, CheckSignature; run; rewrite Hsig].
  destruct (Unserialize (vchMsg this)) as [h|] eqn:Hdec;
    [|by unfold ProcessSyncCheckpoint, CheckSignature; run;
         rewrite Hsig, Hdec].
  destruct (m_block_index s !! h) as [pindex|] eqn:Hidx;
    [|by unfold ProcessSyncCheckpoint, CheckSignature; run;
         rewrite Hsig, Hdec; simpl; rewrite Hidx].
  rewrite (ProcessSyncCheckpoint_known _ _ _ _ Hsig Hdec Hidx).
  destruct (ValidateSyncCheckpoint h s) as [[|] s'|f] eqn:Hval; [|done..].
  apply ValidateSyncCheckpoint_true in Hval as ->.
  destruct (Contains (m_chain s) pindex); [|done].
  destruct (db_failing (m_block_tree_db s)) eqn:Hdb.
  - by rewrite (WriteSyncCheckpoint_failing _ _ Hdb).
  - by rewrite (WriteSyncCheckpoint_healthy _ _ Hdb).
Qed.

(** X3.  [ProcessSyncCheckpoint] returns [true] exactly for a message whose
    signature verifies, whose payload decodes to a hash of the block index
    that [ValidateSyncCheckpoint] accepts, whose block is in the active
    chain, and with a store that accepts the write. *)
Theorem ProcessSyncCheckpoint_commit_iff this s :
  (exists s', ProcessSyncCheckpoint this s = Returns true s') <->
  exists h pindex,
    VerifyMaster (vchMsg this) (vchSig this) = true
    /\ Unserialize (vchMsg this) = Some h
    /\ m_block_index s !! h = Some pindex
    /\ ValidateSyncCheckpoint h s = Returns true s
    /\ Contains (m_chain s) pindex = true
    /\ db_failing (m_block_tree_db s) = false.
Proof.
  rewrite ProcessSyncCheckpoint_cases. split.
  - destruct (VerifyMaster _ _) eqn:Hsig; [|by intros [s' [=]]].
    destruct (Unserialize _) as [h|] eqn:Hdec; [|by intros [s' [=]]].
    destruct (m_block_index s !! h) as [pindex|] eqn:Hidx;
      [|by intros [s' [=]]].
    destruct (ValidateSyncCheckpoint h s) as [[|] s0|f] eqn:Hval;
      [|by intros [s' [=]]..].
    apply ValidateSyncCheckpoint_true in Hval as Heq. subst s0.
    destruct (Contains (m_chain s) pindex) eqn:Hin; [|by intros [s' [=]]].
    destruct (db_failing (m_block_tree_db s)) eqn:Hdb;
      [by intros [s' [=]]|].
    intros _. by exists h, pindex.
  - intros (h & pindex & -> & -> & -> & -> & -> & ->). by eexists.
Qed.

(** X4.  A message that cannot be evaluated leaves one log line and nothing
    else: with a signature that does not verify, and with a verified
    payload naming a block that the index does not know,
    [ProcessSyncCheckpoint] returns [false]; the message is neither kept as
    pending nor recorded as invalid. *)
Theorem ProcessSyncCheckpoint_not_evaluated this s :
  (VerifyMaster (vchMsg this) (vchSig this) = false ->
   ProcessSyncCheckpoint this s =
     Returns false (logged ErrVerifySignature s))
  /\ (forall h,
        VerifyMaster (vchMsg this) (vchSig this) = true ->
        Unserialize (vchMsg this) = Some h ->
        m_block_index s !! h = None ->
        ProcessSyncCheckpoint this s =
          Returns false (logged (LogMissingHeaders h) s)).
Proof.
  rewrite ProcessSyncCheckpoint_cases. split.
  - by intros ->.
  - by intros h -> -> ->.
Qed.

(** X5.  When everything but the store is ready for the commit and the
    store refuses the write, [ProcessSyncCheckpoint] returns [false] after
    two log lines; the checkpoint, both messages and the pending hash are
    as before, and the message is not kept as pending. *)
Theorem ProcessSyncCheckpoint_write_refused this s h pindex :
  VerifyMaster (vchMsg this) (vchSig this) = true ->
  Unserialize (vchMsg this) = Some h ->
  m_block_index s !! h = Some pindex ->
  ValidateSyncCheckpoint h s = Returns true s ->
  Contains (m_chain s) pindex = true ->
  db_failing (m_block_tree_db s) = true ->
  ProcessSyncCheckpoint this s =
    Returns false (logged (ErrProcessWrite h) (logged (ErrWriteTxdb h) s)).
Proof.
  intros Hsig Hdec Hidx Hval Hin Hdb.
  by rewrite ProcessSyncCheckpoint_cases, Hsig, Hdec, Hidx, Hval, Hin, Hdb.
Qed.

End ValidateEdges.

Section CommitInvariants.
Context {CChain : Type} `{!ChainView CChain} `{!MessageCodec}.
Implicit Types (s : Node CChain) (h : uint256) (this : CSyncCheckpoint).

(** [AcceptPendingSyncCheckpoint] by the pending hash, the lookup, the
    validation, the active chain and the store. *)
Lemma AcceptPendingSyncCheckpoint_cases s :
  AcceptPendingSyncCheckpoint s =
    if (hashPendingCheckpoint s =? uint256_zero)%N then Returns false s
    else
      match m_block_index s !! hashPendingCheckpoint s with
      | None => Returns false s
      | Some pindex =>
        match ValidateSyncCheckpoint (hashPendingCheckpoint s) s with
        | Stops f => Stops f
        | Returns false s0 =>
          Returns false
            (set_checkpointMessagePending SetNull
               (set_hashPendingCheckpoint uint256_zero s0))
        | Returns true _ =>
          if Contains (m_chain s) pindex then
            if db_failing (m_block_tree_db s) then
              Returns false
                (logged (ErrAcceptPendingWrite (hashPendingCheckpoint s))
                   (logged (ErrWriteTxdb (hashPendingCheckpoint s)) s))
            else
              let m := checkpointMessagePending s in
              let s2 :=
                set_checkpointMessagePending SetNull
                  (set_checkpointMessage m
                     (set_hashPendingCheckpoint uint256_zero
                        (set_hashSyncCheckpoint (hashPendingCheckpoint s)
                           (set_nFlushes (S (nFlushes s))
                              (set_block_tree_db
                                 {| db_checkpoint :=
                                      Some (hashPendingCheckpoint s);
                                    db_writes :=
                                      hashPendingCheckpoint s
                                      :: db_writes (m_block_tree_db s);
                                    db_failing := false |} s))))) in
              Returns true
                (match g_connman s with
                 | Some connman =>
                   if IsNull m then s2
                   else set_relayed
                          (relayed s
                           ++ map (fun n => (n, m)) (vNodes connman)) s2
                 | None => s2
                 end)
          else Returns false s
        end
      end.
Proof.
  destruct (N.eqb_spec (hashPendingCheckpoint s) uint256_zero) as [Hz|Hnz].
  { unfold AcceptPendingSyncCheckpoint. run.
    by rewrite Hz, N.eqb_refl. }
  destruct (m_block_index s !! hashPendingCheckpoint s) as [pindex|]
    eqn:Hidx.
  2:{ unfold AcceptPendingSyncCheckpoint. run. rewrite Hidx.
      rewrite bool_decide_eq_false_2 by (by intros [? [=]]).
      by rewrite andb_false_r. }
  rewrite (AcceptPendingSyncCheckpoint_have _ _ Hnz Hidx).
  destruct (ValidateSyncCheckpoint _ s) as [[|] s0|f]; [|done..].
  destruct (Contains (m_chain s) pindex); [|done].
  destruct (db_failing (m_block_tree_db s)) eqn:Hdb.
  - by rewrite (WriteSyncCheckpoint_failing _ _ Hdb).
  - by rewrite (WriteSyncCheckpoint_healthy _ _ Hdb).
Qed.

(** X6.  [AcceptPendingSyncCheckpoint] returns [true] exactly when there is
    a pending hash, its block is in the index and in the active chain,
    [ValidateSyncCheckpoint] accepts it and the store accepts the write. *)
Theorem AcceptPendingSyncCheckpoint_commit_iff s :
  (exists s', AcceptPendingSyncCheckpoint s = Returns true s') <->
  hashPendingCheckpoint s <> uint256_zero
  /\ exists pindex,
       m_block_index s !! hashPendingCheckpoint s = Some pindex
       /\ ValidateSyncCheckpoint (hashPendingCheckpoint s) s = Returns true s
       /\ Contains (m_chain s) pindex = true
       /\ db_failing (m_block_tree_db s) = false.
Proof.
  rewrite AcceptPendingSyncCheckpoint_cases. split.
  - destruct (N.eqb_spec (hashPendingCheckpoint s) uint256_zero) as [|Hnz];
      [by intros [s' [=]]|].
    destruct (m_block_index s !! hashPendingCheckpoint s) as [pindex|]
      eqn:Hidx; [|by intros [s' [=]]].
    destruct (ValidateSyncCheckpoint _ s) as [[|] s0|f] eqn:Hval;
      [|by intros [s' [=]]..].
    apply ValidateSyncCheckpoint_true in Hval as Heq. subst s0.
    destruct (Contains (m_chain s) pindex) eqn:Hin; [|by intros [s' [=]]].
    destruct (db_failing (m_block_tree_db s)) eqn:Hdb;
      [by intros [s' [=]]|].
    intros _. split; [done|]. by exists pindex.
  - intros (Hnz & pindex & -> & -> & -> & ->).
    destruct (N.eqb_spec (hashPendingCheckpoint s) uint256_zero); [done|].
    by eexists.
Qed.

(** X7.  [AcceptPendingSyncCheckpoint] waits without a trace: with no
    pending hash, with a pending hash that the block index does not know,
    and with a pending checkpoint that validates but whose block is not yet
    in the active chain, it returns [false] and the node is exactly as
    before, the pending checkpoint included. *)
Theorem AcceptPendingSyncCheckpoint_waits s :
  (hashPendingCheckpoint s = uint256_zero ->
   AcceptPendingSyncCheckpoint s = Returns false s)
  /\ (m_block_index s !! hashPendingCheckpoint s = None ->
      AcceptPendingSyncCheckpoint s = Returns false s)
  /\ (forall pindex,
        m_block_index s !! hashPendingCheckpoint s = Some pindex ->
        ValidateSyncCheckpoint (hashPendingCheckpoint s) s =
          Returns true s ->
        Contains (m_chain s) pindex = false ->
        AcceptPendingSyncCheckpoint s = Returns false s).
Proof.
  rewrite AcceptPendingSyncCheckpoint_cases. split; [|split].
  - intros ->. by rewrite N.eqb_refl.
  - intros ->. by destruct (_ =? _)%N.
  - intros pindex -> -> ->. by destruct (_ =? _)%N.
Qed.

(** X8.  The checkpoint only moves forward.  Whatever
    [ProcessSyncCheckpoint] or [AcceptPendingSyncCheckpoint] returns,
    [hashSyncCheckpoint] afterwards is the old one, or the hash of a block
    of the index that is in the active chain, lies higher than the old
    checkpoint, and whose parent links reach the old checkpoint. *)
Theorem checkpoint_only_advances s :
  (forall this b s',
     ProcessSyncCheckpoint this s = Returns b s' ->
     checkpoint_advanced s s')
  /\ (forall b s',
        AcceptPendingSyncCheckpoint s = Returns b s' ->
        checkpoint_advanced s s').
Proof.
  split.
  - intros this b s'. rewrite ProcessSyncCheckpoint_cases.
    destruct (VerifyMaster _ _); [|by intros [= _ <-]; left].
    destruct (Unserialize _) as [h|]; [|done].
    destruct (m_block_index s !! h) as [pindex|] eqn:Hidx;
      [|by intros [= _ <-]; left].
    destruct (ValidateSyncCheckpoint_frame h s) as (b0 & s0 & Hval & Hf).
    rewrite Hval. destruct b0.
    + apply ValidateSyncCheckpoint_true_inv in Hval
        as (pS & pR & q & HpS & HpR & Hlt & Hq & Hhash).
      destruct (Contains (m_chain s) pindex) eqn:Hin;
        [|by intros [= _ <-]; left].
      destruct (db_failing (m_block_tree_db s));
        [by intros [= _ <-]; left|].
      intros [= _ <-]. right. simpl.
      assert (pR = pindex) as -> by congruence.
      by exists pS, pindex, q.
    + intros [= _ <-]. left. by destruct Hf as (? & _).
  - intros b s'. rewrite AcceptPendingSyncCheckpoint_cases.
    destruct (_ =? _)%N; [by intros [= _ <-]; left|].
    destruct (m_block_index s !! hashPendingCheckpoint s) as [pindex|]
      eqn:Hidx; [|by intros [= _ <-]; left].
    destruct (ValidateSyncCheckpoint_frame (hashPendingCheckpoint s) s)
      as (b0 & s0 & Hval & Hf).
    rewrite Hval. destruct b0.
    + apply ValidateSyncCheckpoint_true_inv in Hval
        as (pS & pR & q & HpS & HpR & Hlt & Hq & Hhash).
      destruct (Contains (m_chain s) pindex) eqn:Hin;
        [|by intros [= _ <-]; left].
      destruct (db_failing (m_block_tree_db s));
        [by intros [= _ <-]; left|].
      intros [= _ <-]. right.
      assert (pR = pindex) as -> by congruence.
      exists pS, pindex, q.
      destruct (g_connman s) as [c|]; [|done].
      by destruct (IsNull (checkpointMessagePending s)).
    + intros [= _ <-]. left. by destruct Hf as (? & _).
Qed.

(** X9.  The pending message stays the message of the pending hash: when
    it is so before a call of [ProcessSyncCheckpoint] or of
    [AcceptPendingSyncCheckpoint], it is so afterwards. *)
Theorem pending_coherent_preserved s :
  pending_coherent s ->
  (forall this b s',
     ProcessSyncCheckpoint this s = Returns b s' -> pending_coherent s')
  /\ (forall b s',
        AcceptPendingSyncCheckpoint s = Returns b s' -> pending_coherent s').
Proof.
  unfold pending_coherent. intros Hcoh. split.
  - intros this b s'. rewrite ProcessSyncCheckpoint_cases.
    destruct (VerifyMaster _ _); [|by intros [= _ <-]].
    destruct (Unserialize _) as [h|]; [|done].
    destruct (m_block_index s !! h) as [pindex|]; [|by intros [= _ <-]].
    destruct (ValidateSyncCheckpoint_frame h s)
      as (b0 & s0 & Hval & _ & Hp & _ & Hm & _).
    rewrite Hval. destruct b0.
    + destruct (Contains (m_chain s) pindex); [|by intros [= _ <-]].
      by destruct (db_failing (m_block_tree_db s)); intros [= _ <-].
    + intros [= _ <-]. by rewrite Hp, Hm.
  - intros b s'. rewrite AcceptPendingSyncCheckpoint_cases.
    destruct (_ =? _)%N; [by intros [= _ <-]|].
    destruct (m_block_index s !! hashPendingCheckpoint s) as [pindex|];
      [|by intros [= _ <-]].
    destruct (ValidateSyncCheckpoint _ s) as [[|] s0|f]; [| |done].
    + destruct (Contains (m_chain s) pindex); [|by intros [= _ <-]].
      destruct (db_failing (m_block_tree_db s)); [by intros [= _ <-]|].
      intros [= _ <-].
      destruct (g_connman s) as [c|]; [|done].
      by destruct (IsNull (checkpointMessagePending s)).
    + by intros [= _ <-].
Qed.

(** X10.  On a node whose pending message is the message of the pending
    hash, a commit by [AcceptPendingSyncCheckpoint] calls [RelayTo] with
    the message for every peer of the connection manager: the test for a
    null message never holds it back.  Afterwards [checkpointMessage] is
    the message of [hashSyncCheckpoint]. *)
Theorem AcceptPendingSyncCheckpoint_relays_to_all s connman s' :
  pending_coherent s ->
  g_connman s = Some connman ->
  AcceptPendingSyncCheckpoint s = Returns true s' ->
  relayed s' =
    relayed s ++ map (fun n => (n, checkpointMessagePending s))
                   (vNodes connman)
  /\ checkpointMessage s' = checkpointMessagePending s
  /\ hashCheckpoint (checkpointMessage s') = hashSyncCheckpoint s'.
Proof.
  unfold pending_coherent. intros Hcoh Hconn.
  rewrite AcceptPendingSyncCheckpoint_cases.
  destruct (N.eqb_spec (hashPendingCheckpoint s) uint256_zero) as [|Hnz];
    [done|].
  destruct (m_block_index s !! hashPendingCheckpoint s) as [pindex|];
    [|done].
  destruct (ValidateSyncCheckpoint _ s) as [[|] s0|f]; [|done..].
  destruct (Contains (m_chain s) pindex); [|done].
  destruct (db_failing (m_block_tree_db s)); [done|].
  rewrite Hconn. unfold IsNull. rewrite Hcoh.
  destruct (N.eqb_spec (hashPendingCheckpoint s) uint256_zero); [done|].
  by intros [= <-].
Qed.

(** [ProcessSyncCheckpoint] keeps the store in step with the memory. *)
Lemma ProcessSyncCheckpoint_in_step this s b s' :
  store_in_step s ->
  ProcessSyncCheckpoint this s = Returns b s' ->
  store_in_step s'.
Proof.
  unfold store_in_step. intros Hstep. rewrite ProcessSyncCheckpoint_cases.
  destruct (VerifyMaster _ _); [|by intros [= _ <-]].
  destruct (Unserialize _) as [h|]; [|done].
  destruct (m_block_index s !! h) as [pindex|]; [|by intros [= _ <-]].
  destruct (ValidateSyncCheckpoint_frame h s)
    as (b0 & s0 & Hval & Hs & _ & _ & _ & _ & _ & _ & Hdb & _).
  rewrite Hval. destruct b0.
  - destruct (Contains (m_chain s) pindex); [|by intros [= _ <-]].
    by destruct (db_failing (m_block_tree_db s)); intros [= _ <-].
  - intros [= _ <-]. by rewrite Hdb, Hs.
Qed.

(** X11.  Memory and store stay in step: when the stored checkpoint is
    [hashSyncCheckpoint] before a call of [WriteSyncCheckpoint],
    [ProcessSyncCheckpoint] or [AcceptPendingSyncCheckpoint], it is so
    afterwards, whether the call commits, fails or is refused by the
    store. *)
Theorem store_in_step_preserved s :
  store_in_step s ->
  (forall h b s', WriteSyncCheckpoint h s = Returns b s' -> store_in_step s')
  /\ (forall this b s',
        ProcessSyncCheckpoint this s = Returns b s' -> store_in_step s')
  /\ (forall b s',
        AcceptPendingSyncCheckpoint s = Returns b s' -> store_in_step s').
Proof.
  intros Hstep. split; [|split].
  - intros h b s'. unfold store_in_step.
    destruct (db_failing (m_block_tree_db s)) eqn:Hdb.
    + rewrite (WriteSyncCheckpoint_failing _ _ Hdb). by intros [= _ <-].
    + rewrite (WriteSyncCheckpoint_healthy _ _ Hdb). by intros [= _ <-].
  - intros this b s'. by apply ProcessSyncCheckpoint_in_step.
  - intros b s'. unfold store_in_step in *.
    rewrite AcceptPendingSyncCheckpoint_cases.
    destruct (_ =? _)%N; [by intros [= _ <-]|].
    destruct (m_block_index s !! hashPendingCheckpoint s) as [pindex|];
      [|by intros [= _ <-]].
    destruct (ValidateSyncCheckpoint_frame (hashPendingCheckpoint s) s)
      as (b0 & s0 & Hval & Hs & _ & _ & _ & _ & _ & _ & Hdb & _).
    rewrite Hval. destruct b0.
    + destruct (Contains (m_chain s) pindex); [|by intros [= _ <-]].
      destruct (db_failing (m_block_tree_db s)); [by intros [= _ <-]|].
      intros [= _ <-].
      destruct (g_connman s) as [c|]; [|done].
      by destruct (IsNull (checkpointMessagePending s)).
    + intros [= _ <-]. simpl. by rewrite Hdb, Hs.
Qed.

End CommitInvariants.

Section EnforcementEdges.
Context {CChain : Type} `{!ChainView CChain} `{!MessageCodec}.
Implicit Types (s : Node CChain) (chain : CChain).

(** X12.  At or below the height of the checkpoint (and above height 0):
    a block at the height of the checkpoint passes [CheckSyncCheckpoint]
    exactly when it carries the hash of the checkpoint; a block below it
    passes exactly when its hash is already in the block index, whether or
    not it is in the active chain.  A refusal leaves one log line. *)
Theorem CheckSyncCheckpoint_not_above s pindexSync pindexNew :
  m_block_index s !! hashSyncCheckpoint s = Some pindexSync ->
  Contains (m_chain s) pindexSync = true ->
  nHeight pindexNew <> 0 ->
  nHeight pindexNew <= nHeight pindexSync ->
  (nHeight pindexNew = nHeight pindexSync ->
   (GetBlockHash pindexNew = hashSyncCheckpoint s ->
    CheckSyncCheckpoint (Some pindexNew) s = Returns true s)
   /\ (GetBlockHash pindexNew <> hashSyncCheckpoint s ->
       CheckSyncCheckpoint (Some pindexNew) s =
         Returns false (logged ErrSameHeight s)))
  /\ (nHeight pindexNew < nHeight pindexSync ->
      (is_Some (m_block_index s !! GetBlockHash pindexNew) ->
       CheckSyncCheckpoint (Some pindexNew) s = Returns true s)
      /\ (m_block_index s !! GetBlockHash pindexNew = None ->
          CheckSyncCheckpoint (Some pindexNew) s =
            Returns false (logged ErrLowerHeight s))).
Proof.
  intros Hsync Hin Hnz Hle.
  assert (Hrun : CheckSyncCheckpoint (Some pindexNew) s =
    if (nHeight pindexNew =? nHeight pindexSync)
       && negb (GetBlockHash pindexNew =? hashSyncCheckpoint s)%N
    then Returns false (logged ErrSameHeight s)
    else if (nHeight pindexNew <? nHeight pindexSync)
            && negb (bool_decide
                       (is_Some (m_block_index s
                                   !! GetBlockHash pindexNew)))
    then Returns false (logged ErrLowerHeight s)
    else Returns true s).
  { unfold CheckSyncCheckpoint.
    destruct (Z.eqb_spec (nHeight pindexNew) 0); [done|].
    run. rewrite Hsync, Hin.
    destruct (Z.gtb_spec (nHeight pindexNew) (nHeight pindexSync)); [lia|].
    destruct (_ && _); [done|]. by destruct (_ && _). }
  rewrite Hrun. split.
  - intros Heq. rewrite Heq, Z.eqb_refl, Z.ltb_irrefl. simpl. split.
    + intros ->. by rewrite N.eqb_refl.
    + intros Hne.
      by destruct (N.eqb_spec (GetBlockHash pindexNew)
                     (hashSyncCheckpoint s)).
  - intros Hlt.
    destruct (Z.eqb_spec (nHeight pindexNew) (nHeight pindexSync)); [lia|].
    destruct (Z.ltb_spec (nHeight pindexNew) (nHeight pindexSync)); [|lia].
    simpl. split.
    + intros Hsome. by rewrite bool_decide_eq_true_2.
    + intros Hnone. rewrite bool_decide_eq_false_2; [done|].
      rewrite Hnone. by intros [? [=]].
Qed.

(** X13.  What [CheckSyncCheckpoint] requires of the node: a block of
    height 0 passes before anything is looked at; for every other block the
    current checkpoint must be in the block index and in the active chain,
    and the function stops on a failed assertion when it is not, as it does
    for a null block. *)
Theorem CheckSyncCheckpoint_requirements s pindexNew :
  (nHeight pindexNew = 0 ->
   CheckSyncCheckpoint (Some pindexNew) s = Returns true s)
  /\ CheckSyncCheckpoint None s = Stops AssertionFailed
  /\ (nHeight pindexNew <> 0 ->
      m_block_index s !! hashSyncCheckpoint s = None ->
      CheckSyncCheckpoint (Some pindexNew) s = Stops AssertionFailed)
  /\ (forall pindexSync,
        nHeight pindexNew <> 0 ->
        m_block_index s !! hashSyncCheckpoint s = Some pindexSync ->
        Contains (m_chain s) pindexSync = false ->
        CheckSyncCheckpoint (Some pindexNew) s = Stops AssertionFailed).
Proof.
  split; [|split; [|split]].
  - intros Hz. unfold CheckSyncCheckpoint. by rewrite Hz.
  - done.
  - intros Hnz Hsync. unfold CheckSyncCheckpoint.
    destruct (Z.eqb_spec (nHeight pindexNew) 0); [done|].
    run. by rewrite Hsync.
  - intros pindexSync Hnz Hsync Hout. unfold CheckSyncCheckpoint.
    destruct (Z.eqb_spec (nHeight pindexNew) 0); [done|].
    run. by rewrite Hsync, Hout.
Qed.

(** X14.  The active chain can always be extended above the checkpoint: a
    block above the checkpoint that is in the active chain, or whose parent
    is, passes [CheckSyncCheckpoint]. *)
Theorem CheckSyncCheckpoint_extends_chain s pindexSync pindexNew :
  m_block_index s !! hashSyncCheckpoint s = Some pindexSync ->
  Contains (m_chain s) pindexSync = true ->
  0 <= nHeight pindexSync ->
  nHeight pindexSync < nHeight pindexNew ->
  Contains (m_chain s) pindexNew = true
  \/ (exists p, pprev pindexNew = Some p /\ Contains (m_chain s) p = true) ->
  CheckSyncCheckpoint (Some pindexNew) s = Returns true s.
Proof.
  intros Hsync Hin H0 Hlt Hcase.
  rewrite (CheckSyncCheckpoint_higher _ _ _ Hsync Hin H0 Hlt).
  destruct pindexNew as [hb n pp]. simpl in *.
  destruct (Contains (m_chain s) (mkBlockIndex hb n pp)) eqn:Hc.
  - rewrite andb_false_r. by rewrite Hc.
  - destruct Hcase as [|(p & -> & Hp)]; [done|].
    destruct (Z.gtb_spec n (nHeight pindexSync)); [|lia]. simpl.
    destruct p as [hp np ppp]. simpl.
    rewrite Hp, andb_false_r. by rewrite Hp.
Qed.

(** X15.  [CheckSyncCheckpoint] only reads: when it returns [true] the node
    is untouched, and when it returns [false] the node differs by one line
    of the debug log, which is one of its four refusals. *)
Theorem CheckSyncCheckpoint_read_only s pindexNew b s' :
  CheckSyncCheckpoint pindexNew s = Returns b s' ->
  (b = true /\ s' = s)
  \/ (b = false
      /\ exists l,
           s' = logged l s
           /\ l ∈ [ErrPprevNull; ErrOnlyDescendants; ErrSameHeight;
                   ErrLowerHeight]).
Proof.
  unfold CheckSyncCheckpoint. destruct pindexNew as [pindexNew|]; [|done].
  destruct (nHeight pindexNew =? 0); [by intros [= <- <-]; left|].
  run. destruct (m_block_index s !! hashSyncCheckpoint s) as [pS|]; [|done].
  destruct (Contains (m_chain s) pS); [|done].
  destruct (nHeight pindexNew >? nHeight pS);
    [destruct (trace_to_chain _ _ _) as [q|];
       [destruct (Contains (m_chain s) q); simpl|]|];
    repeat match goal with
           | |- context [if ?c then _ else _] => destruct c
           end;
    simpl; intros [= <- <-];
    first [ by left
          | right; split; [done|]; eexists; split; [done|]; set_solver ].
Qed.

End EnforcementEdges.

Section AutoSelectEdges.
Context {CChain : Type} `{!ChainView CChain}.

Lemma search_backward_in_ancestry d T pindex :
  search_backward d T pindex ∈ ancestry pindex.
Proof.
  induction pindex as [hb n|hb n p IH] using CBlockIndex_chain_ind; simpl.
  - left.
  - destruct (_ >? _); [by right | left].
Qed.

(** X16.  A depth of 0 or below (within the range of [int]) selects the
    tip: the loop of [AutoSelectSyncCheckpoint] does not move.  This is what
    the default depth -1 gives when the function is called. *)
Theorem AutoSelectSyncCheckpoint_tip d chain tip :
  Tip chain = Some tip ->
  - 2 ^ 31 <= d <= 0 ->
  0 <= nHeight tip < 2 ^ 31 ->
  AutoSelectSyncCheckpoint d chain = Some (GetBlockHash tip).
Proof.
  intros Htip Hd Hh. unfold AutoSelectSyncCheckpoint. rewrite Htip.
  rewrite int_of_int64_exact by lia.
  destruct tip as [hb n [p|]]; simpl in *; [|done].
  unfold int_add. rewrite int_of_int64_exact by lia.
  destruct (Z.gtb_spec (n + d) n); [lia | done].
Qed.

(** X17.  Whatever the configured depth, also one outside the range of
    [int], [AutoSelectSyncCheckpoint] on a chain with a tip returns the
    hash of an entry on the parent links of the tip; it fails only on the
    empty chain. *)
Theorem AutoSelectSyncCheckpoint_on_chain d chain :
  match Tip chain with
  | Some tip =>
    exists q, q ∈ ancestry tip
              /\ AutoSelectSyncCheckpoint d chain = Some (GetBlockHash q)
  | None => AutoSelectSyncCheckpoint d chain = None
  end.
Proof.
  unfold AutoSelectSyncCheckpoint. destruct (Tip chain) as [tip|]; [|done].
  eexists. split; [apply search_backward_in_ancestry | done].
Qed.

End AutoSelectEdges.

(** * Properties of the master side *)

Section MasterProperties.
Context {CChain : Type} `{!ChainView CChain} `{!MessageCodec}
  `{!ConsensusParams} `{!MasterKey} `{!ConnmanView}.
Implicit Types (ms : MasterNode CChain) (h : uint256).

(** [ResetSyncCheckpoint] by the state of the store. *)
Lemma ResetSyncCheckpoint_cases ms :
  ResetSyncCheckpoint ms =
    if db_failing (m_block_tree_db (base ms)) then
      MReturns false
        (master_logged (ErrResetWrite defaultAssumeValid)
           (set_node (logged (ErrWriteTxdb defaultAssumeValid) (base ms))
              ms))
    else
      MReturns true
        (set_node
           (set_hashSyncCheckpoint defaultAssumeValid
              (set_nFlushes (S (nFlushes (base ms)))
                 (set_block_tree_db
                    {| db_checkpoint := Some defaultAssumeValid;
                       db_writes :=
                         defaultAssumeValid
                         :: db_writes (m_block_tree_db (base ms));
                       db_failing := false |} (base ms)))) ms).
Proof.
  unfold ResetSyncCheckpoint. master_run.
  destruct (db_failing (m_block_tree_db (base ms))) eqn:Hdb.
  - by rewrite (WriteSyncCheckpoint_failing _ _ Hdb).
  - by rewrite (WriteSyncCheckpoint_healthy _ _ Hdb).
Qed.

(** X18.  [ResetSyncCheckpoint] moves the checkpoint and nothing else.
    With a store that accepts the write it returns [true],
    [hashSyncCheckpoint] and the stored checkpoint are
    [defaultAssumeValid], while the pending hash, both messages and the
    invalid hash keep their values; the hash is not looked up in the block
    index.  With a store that refuses, it returns [false] after two log
    lines and the checkpoint stays. *)
Theorem ResetSyncCheckpoint_moves_only_checkpoint ms :
  (db_failing (m_block_tree_db (base ms)) = false ->
   exists ms',
     ResetSyncCheckpoint ms = MReturns true ms'
     /\ hashSyncCheckpoint (base ms') = defaultAssumeValid
     /\ db_checkpoint (m_block_tree_db (base ms')) = Some defaultAssumeValid
     /\ hashPendingCheckpoint (base ms') = hashPendingCheckpoint (base ms)
     /\ checkpointMessagePending (base ms') =
          checkpointMessagePending (base ms)
     /\ checkpointMessage (base ms') = checkpointMessage (base ms)
     /\ hashInvalidCheckpoint (base ms') = hashInvalidCheckpoint (base ms)
     /\ debug_log (base ms') = debug_log (base ms)
     /\ master_log ms' = master_log ms)
  /\ (db_failing (m_block_tree_db (base ms)) = true ->
      exists ms',
        ResetSyncCheckpoint ms = MReturns false ms'
        /\ hashSyncCheckpoint (base ms') = hashSyncCheckpoint (base ms)
        /\ m_block_tree_db (base ms') = m_block_tree_db (base ms)
        /\ debug_log (base ms') =
             debug_log (base ms) ++ [ErrWriteTxdb defaultAssumeValid]
        /\ master_log ms' =
             master_log ms
             ++ [(S (length (debug_log (base ms))),
                  ErrResetWrite defaultAssumeValid)]).
Proof.
  rewrite ResetSyncCheckpoint_cases. split; intros ->.
  - eexists. split; [done|]. by repeat split.
  - eexists. split; [done|]. repeat split.
    unfold master_logged. simpl. rewrite length_app. simpl.
    by rewrite Nat.add_1_r.
Qed.

(** X19.  With the master public key already in the store,
    [CheckCheckpointPubKey] returns [true] and changes nothing: no reset,
    no write, no flush. *)
Theorem CheckCheckpointPubKey_same_key ms :
  db_pubkey (key_table ms) = Some checkpointPubKey ->
  CheckCheckpointPubKey ms = MReturns true ms.
Proof.
  intros Hkey. unfold CheckCheckpointPubKey, txdb_ReadCheckpointPubKey.
  master_run. by rewrite Hkey, String.eqb_refl.
Qed.

(** [CheckCheckpointPubKey] with another key, or none, in the store. *)
Lemma CheckCheckpointPubKey_changed ms :
  db_pubkey (key_table ms) <> Some checkpointPubKey ->
  CheckCheckpointPubKey ms =
    match ResetSyncCheckpoint ms with
    | MStops f => MStops f
    | MReturns false ms1 => MReturns false (master_logged ErrPubKeyReset ms1)
    | MReturns true ms1 =>
      if db_pubkey_failing (key_table ms1) then
        MReturns false
          (master_logged ErrPubKeyWrite
             (set_key_table (key_table ms1) ms1))
      else
        MReturns true
          (set_node
             (set_nFlushes (S (nFlushes (base ms1))) (base ms1))
             (set_key_table
                {| db_pubkey := Some checkpointPubKey;
                   db_pubkey_failing := false |} ms1))
    end.
Proof.
  intros Hkey. unfold CheckCheckpointPubKey, txdb_ReadCheckpointPubKey,
    txdb_WriteCheckpointPubKey, db_WriteCheckpointPubKey,
    ForceFlushStateToDisk. master_run.
  assert (Hbranch :
    match db_pubkey (key_table ms) with
    | Some strPubKey => negb (String.eqb strPubKey checkpointPubKey)
    | None => true
    end = true).
  { destruct (db_pubkey (key_table ms)) as [k|]; [|done].
    destruct (String.eqb_spec k checkpointPubKey); [congruence | done]. }
  rewrite Hbranch.
  destruct (ResetSyncCheckpoint ms) as [[|] ms1|f]; simpl; [|done..].
  by destruct (db_pubkey_failing (key_table ms1)) eqn:Hf.
Qed.

(** X20.  With another key or none in the store and a store that accepts
    both writes, [CheckCheckpointPubKey] returns [true], the checkpoint is
    reset to [defaultAssumeValid] in memory and in the store, and the master
    public key is stored; a second call then changes nothing. *)
Theorem CheckCheckpointPubKey_new_key ms :
  db_pubkey (key_table ms) <> Some checkpointPubKey ->
  db_failing (m_block_tree_db (base ms)) = false ->
  db_pubkey_failing (key_table ms) = false ->
  exists ms',
    CheckCheckpointPubKey ms = MReturns true ms'
    /\ hashSyncCheckpoint (base ms') = defaultAssumeValid
    /\ db_checkpoint (m_block_tree_db (base ms')) = Some defaultAssumeValid
    /\ db_pubkey (key_table ms') = Some checkpointPubKey
    /\ hashPendingCheckpoint (base ms') = hashPendingCheckpoint (base ms)
    /\ CheckCheckpointPubKey ms' = MReturns true ms'.
Proof.
  intros Hkey Hdb Hkdb.
  rewrite (CheckCheckpointPubKey_changed _ Hkey).
  rewrite ResetSyncCheckpoint_cases, Hdb. simpl. rewrite Hkdb.
  eexists. split; [done|]. repeat split.
  unfold CheckCheckpointPubKey, txdb_ReadCheckpointPubKey. master_run.
  simpl. by rewrite String.eqb_refl.
Qed.

(** X21.  When a write is refused, [CheckCheckpointPubKey] returns [false]
    and the stored key is as before, so that the next call tries again.  If
    the checkpoint write is refused, the checkpoint stays; if only the key
    write is refused, the checkpoint has already been reset. *)
Theorem CheckCheckpointPubKey_refused ms :
  db_pubkey (key_table ms) <> Some checkpointPubKey ->
  (db_failing (m_block_tree_db (base ms)) = true ->
   exists ms',
     CheckCheckpointPubKey ms = MReturns false ms'
     /\ db_pubkey (key_table ms') = db_pubkey (key_table ms)
     /\ hashSyncCheckpoint (base ms') = hashSyncCheckpoint (base ms)
     /\ m_block_tree_db (base ms') = m_block_tree_db (base ms)
     /\ master_log ms' =
          master_log ms
          ++ [(S (length (debug_log (base ms))),
               ErrResetWrite defaultAssumeValid);
              (S (length (debug_log (base ms))), ErrPubKeyReset)])
  /\ (db_failing (m_block_tree_db (base ms)) = false ->
      db_pubkey_failing (key_table ms) = true ->
      exists ms',
        CheckCheckpointPubKey ms = MReturns false ms'
        /\ db_pubkey (key_table ms') = db_pubkey (key_table ms)
        /\ hashSyncCheckpoint (base ms') = defaultAssumeValid
        /\ db_checkpoint (m_block_tree_db (base ms')) =
             Some defaultAssumeValid
        /\ master_log ms' =
             master_log ms
             ++ [(length (debug_log (base ms)), ErrPubKeyWrite)]).
Proof.
  intros Hkey. rewrite (CheckCheckpointPubKey_changed _ Hkey).
  rewrite ResetSyncCheckpoint_cases. split.
  - intros ->. eexists. split; [done|]. repeat split.
    unfold master_logged. simpl. rewrite length_app. simpl.
    by rewrite Nat.add_1_r, <- app_assoc.
  - intros -> Hkdb. simpl. rewrite Hkdb.
    eexists. split; [done|]. by repeat split.
Qed.

(** X22.  [SetCheckpointPrivKey] returns [true] exactly for a string that
    decodes to a valid key, and only then replaces
    [strMasterPrivKey]; it touches nothing else. *)
Theorem SetCheckpointPrivKey_valid_only strPrivKey ms :
  exists b ms',
    SetCheckpointPrivKey strPrivKey ms = MReturns b ms'
    /\ (b = true <-> is_Some (DecodeSecret strPrivKey))
    /\ strMasterPrivKey ms' =
         (if b then strPrivKey else strMasterPrivKey ms)
    /\ base ms' = base ms
    /\ key_table ms' = key_table ms
    /\ master_log ms' = master_log ms.
Proof.
  unfold SetCheckpointPrivKey. master_run.
  destruct (DecodeSecret strPrivKey) as [k|]; eexists _, _;
    (split; [done|]); (split; [|done]).
  - split; [by eauto | done].
  - split; [done | by intros [? [=]]].
Qed.

End MasterProperties.

Section SendProperties.
Context {CChain : Type} `{!ChainView CChain} `{!MessageCodec}
  `{!ConsensusParams} `{!MasterKey} `{!ConnmanView}.
Implicit Types (ms : MasterNode CChain) (h : uint256).

(** [after_CheckSignature] is the object [CheckSignature] hands on. *)
Lemma CheckSignature_object this (s : Node CChain) b this' s' :
  CheckSignature this s = Returns (b, this') s' ->
  this' = after_CheckSignature this.
Proof.
  unfold CheckSignature, after_CheckSignature. run.
  destruct (VerifyMaster _ _); simpl; [|by intros [= _ <- _]].
  destruct (Unserialize _); [|done]. by intros [= _ <- _].
Qed.

(** [SendSyncCheckpoint] by its guards, the key and the outcome of
    [ProcessSyncCheckpoint]. *)
Lemma SendSyncCheckpoint_cases h connman ms :
  SendSyncCheckpoint h connman ms =
    match connman with
    | None => MReturns true ms
    | Some c =>
      if (GetNodeCount c =? 0)%nat then MReturns true ms
      else if (h =? uint256_zero)%N then MReturns true ms
      else if String.eqb (strMasterPrivKey ms) EmptyString then
        MReturns false (master_logged ErrMasterKeyUnavailable ms)
      else
        match DecodeSecret (strMasterPrivKey ms) with
        | None => MReturns false (master_logged ErrMasterKeyInvalid ms)
        | Some key =>
          match Sign key (SerializeUnsigned h) with
          | None => MReturns false (master_logged ErrSign ms)
          | Some sig =>
            match ProcessSyncCheckpoint (signed_checkpoint h sig)
                    (base ms) with
            | Stops f => MStops f
            | Returns false n =>
              MReturns false (master_logged ErrSendProcess (set_node n ms))
            | Returns true n =>
              MReturns true
                (set_node
                   (set_relayed
                      (relayed n
                       ++ map (fun p =>
                                 (p, after_CheckSignature
                                       (signed_checkpoint h sig)))
                            (vNodes c)) n) ms)
            end
          end
        end
    end.
Proof.
  unfold SendSyncCheckpoint. destruct connman as [c|]; [|done].
  destruct (GetNodeCount c =? 0)%nat; [done|].
  destruct (h =? uint256_zero)%N; [done|].
  master_run.
  destruct (String.eqb (strMasterPrivKey ms) EmptyString); [done|].
  destruct (DecodeSecret (strMasterPrivKey ms)) as [key|]; [|done].
  destruct (Sign key (SerializeUnsigned h)) as [sig|]; [|done].
  fold (signed_checkpoint h sig).
  destruct (ProcessSyncCheckpoint _ (base ms)) as [[|] n|f]; simpl; done.
Qed.

(** What a [true] of [ProcessSyncCheckpoint] leaves in the node. *)
Lemma ProcessSyncCheckpoint_true_state this (s n : Node CChain) :
  ProcessSyncCheckpoint this s = Returns true n ->
  exists h',
    VerifyMaster (vchMsg this) (vchSig this) = true
    /\ Unserialize (vchMsg this) = Some h'
    /\ hashSyncCheckpoint n = h'
    /\ checkpointMessage n = decoded this h'
    /\ relayed n = relayed s.
Proof.
  rewrite ProcessSyncCheckpoint_cases.
  destruct (VerifyMaster _ _) eqn:Hsig; [|done].
  destruct (Unserialize _) as [h'|] eqn:Hdec; [|done].
  destruct (m_block_index s !! h') as [pindex|]; [|done].
  destruct (ValidateSyncCheckpoint h' s) as [[|] s0|f]; [|done..].
  destruct (Contains (m_chain s) pindex); [|done].
  destruct (db_failing (m_block_tree_db s)); [done|].
  intros [= <-]. by exists h'.
Qed.

(** What any return of [ProcessSyncCheckpoint] leaves of the outbox. *)
Lemma ProcessSyncCheckpoint_relayed this (s : Node CChain) b n :
  ProcessSyncCheckpoint this s = Returns b n -> relayed n = relayed s.
Proof.
  rewrite ProcessSyncCheckpoint_cases.
  destruct (VerifyMaster _ _); [|by intros [= _ <-]].
  destruct (Unserialize _) as [h'|]; [|done].
  destruct (m_block_index s !! h') as [pindex|]; [|by intros [= _ <-]].
  destruct (ValidateSyncCheckpoint_frame h' s) as (b0 & s0 & Hval & Hf).
  rewrite Hval. destruct b0.
  - destruct (Contains (m_chain s) pindex); [|by intros [= _ <-]].
    by destruct (db_failing (m_block_tree_db s)); intros [= _ <-].
  - intros [= _ <-]. by destruct Hf as (_&_&_&_&_&_&_&_&_&_&?).
Qed.

(** X23.  [SendSyncCheckpoint] has nothing to do, returns [true] and leaves
    the master as it is, when there is no connection manager, when no peer
    is connected, and for the zero hash.  In these cases the checkpoint is
    not processed on the master itself either, and the key is not looked
    at. *)
Theorem SendSyncCheckpoint_nothing_to_do h ms :
  SendSyncCheckpoint h None ms = MReturns true ms
  /\ (forall c, GetNodeCount c = 0%nat ->
                SendSyncCheckpoint h (Some c) ms = MReturns true ms)
  /\ (forall c, SendSyncCheckpoint uint256_zero (Some c) ms =
                  MReturns true ms).
Proof.
  split; [done|]. split.
  - intros c Hc. rewrite SendSyncCheckpoint_cases. by rewrite Hc.
  - intros c. rewrite SendSyncCheckpoint_cases.
    by destruct (GetNodeCount c =? 0)%nat.
Qed.

(** X24.  Without a usable key nothing is processed or relayed: with peers
    connected and a non-zero hash, an empty [strMasterPrivKey], a key that
    does not decode, and a signature that cannot be made each give
    [false] with their own log line, and the node is untouched. *)
Theorem SendSyncCheckpoint_without_key h c ms :
  GetNodeCount c <> 0%nat ->
  h <> uint256_zero ->
  (strMasterPrivKey ms = EmptyString ->
   SendSyncCheckpoint h (Some c) ms =
     MReturns false (master_logged ErrMasterKeyUnavailable ms))
  /\ (strMasterPrivKey ms <> EmptyString ->
      DecodeSecret (strMasterPrivKey ms) = None ->
      SendSyncCheckpoint h (Some c) ms =
        MReturns false (master_logged ErrMasterKeyInvalid ms))
  /\ (forall key,
        strMasterPrivKey ms <> EmptyString ->
        DecodeSecret (strMasterPrivKey ms) = Some key ->
        Sign key (SerializeUnsigned h) = None ->
        SendSyncCheckpoint h (Some c) ms =
          MReturns false (master_logged ErrSign ms))
  /\ (forall l, base (master_logged l ms) = base ms).
Proof.
  intros Hc Hh. rewrite SendSyncCheckpoint_cases.
  destruct (Nat.eqb_spec (GetNodeCount c) 0); [done|].
  destruct (N.eqb_spec h uint256_zero); [done|].
  split; [|split; [|split]].
  - by intros ->.
  - intros Hne ->.
    by destruct (String.eqb_spec (strMasterPrivKey ms) EmptyString).
  - intros key Hne -> ->.
    by destruct (String.eqb_spec (strMasterPrivKey ms) EmptyString).
  - done.
Qed.

(** X25.  The master path end to end.  With peers connected, a key that
    signs, a codec for which the signature verifies and the payload decodes
    back to the hash, a hash whose block is in the index and in the active
    chain and which [ValidateSyncCheckpoint] accepts, and a store that
    accepts the write, [SendSyncCheckpoint] returns [true]: the checkpoint
    is committed on the master, the signed message is its
    [checkpointMessage], and [RelayTo] is called with that message once
    for each peer of the connection manager. *)
Theorem SendSyncCheckpoint_commits_and_relays h c ms key sig pindex :
  GetNodeCount c <> 0%nat ->
  h <> uint256_zero ->
  strMasterPrivKey ms <> EmptyString ->
  DecodeSecret (strMasterPrivKey ms) = Some key ->
  Sign key (SerializeUnsigned h) = Some sig ->
  VerifyMaster (SerializeUnsigned h) sig = true ->
  Unserialize (SerializeUnsigned h) = Some h ->
  m_block_index (base ms) !! h = Some pindex ->
  ValidateSyncCheckpoint h (base ms) = Returns true (base ms) ->
  Contains (m_chain (base ms)) pindex = true ->
  db_failing (m_block_tree_db (base ms)) = false ->
  exists ms',
    SendSyncCheckpoint h (Some c) ms = MReturns true ms'
    /\ hashSyncCheckpoint (base ms') = h
    /\ db_checkpoint (m_block_tree_db (base ms')) = Some h
    /\ checkpointMessage (base ms') = signed_checkpoint h sig
    /\ relayed (base ms') =
         relayed (base ms)
         ++ map (fun p => (p, signed_checkpoint h sig)) (vNodes c)
    /\ master_log ms' = master_log ms.
Proof.
  intros Hc Hh Hkey Hdec Hsign Hsig Hrt Hidx Hval Hin Hdb.
  rewrite SendSyncCheckpoint_cases.
  destruct (Nat.eqb_spec (GetNodeCount c) 0); [done|].
  destruct (N.eqb_spec h uint256_zero); [done|].
  destruct (String.eqb_spec (strMasterPrivKey ms) EmptyString); [done|].
  rewrite Hdec, Hsign, ProcessSyncCheckpoint_cases. simpl.
  rewrite Hsig, Hrt, Hidx, Hval, Hin, Hdb.
  unfold after_CheckSignature. simpl. rewrite Hsig, Hrt.
  eexists. split; [done|]. by repeat split.
Qed.

(** X26.  A checkpoint whose block is not yet in the active chain of the
    master: under the conditions of the end-to-end path but with the block
    outside the active chain, [SendSyncCheckpoint] returns [false] with
    the line "Failed to process checkpoint" and relays nothing, while the
    checkpoint is now pending on the master. *)
Theorem SendSyncCheckpoint_deferred h c ms key sig pindex :
  GetNodeCount c <> 0%nat ->
  h <> uint256_zero ->
  strMasterPrivKey ms <> EmptyString ->
  DecodeSecret (strMasterPrivKey ms) = Some key ->
  Sign key (SerializeUnsigned h) = Some sig ->
  VerifyMaster (SerializeUnsigned h) sig = true ->
  Unserialize (SerializeUnsigned h) = Some h ->
  m_block_index (base ms) !! h = Some pindex ->
  ValidateSyncCheckpoint h (base ms) = Returns true (base ms) ->
  Contains (m_chain (base ms)) pindex = false ->
  exists ms',
    SendSyncCheckpoint h (Some c) ms = MReturns false ms'
    /\ hashPendingCheckpoint (base ms') = h
    /\ checkpointMessagePending (base ms') = signed_checkpoint h sig
    /\ hashSyncCheckpoint (base ms') = hashSyncCheckpoint (base ms)
    /\ m_block_tree_db (base ms') = m_block_tree_db (base ms)
    /\ relayed (base ms') = relayed (base ms)
    /\ debug_log (base ms') = debug_log (base ms) ++ [LogPending h]
    /\ master_log ms' =
         master_log ms
         ++ [(S (length (debug_log (base ms))), ErrSendProcess)].
Proof.
  intros Hc Hh Hkey Hdec Hsign Hsig Hrt Hidx Hval Hout.
  rewrite SendSyncCheckpoint_cases.
  destruct (Nat.eqb_spec (GetNodeCount c) 0); [done|].
  destruct (N.eqb_spec h uint256_zero); [done|].
  destruct (String.eqb_spec (strMasterPrivKey ms) EmptyString); [done|].
  rewrite Hdec, Hsign, ProcessSyncCheckpoint_cases. simpl.
  rewrite Hsig, Hrt, Hidx, Hval, Hout.
  eexists. split; [done|]. repeat split.
  unfold master_logged. simpl. rewrite length_app. simpl.
  by rewrite Nat.add_1_r.
Qed.

(** X27.  The master relays only what it has committed.  Whatever
    [SendSyncCheckpoint] returns, the list of [RelayTo] calls is as before,
    or the call returned [true] and [RelayTo] was called for every peer of
    the connection manager with one and the same message, whose signature
    verifies, which is the [checkpointMessage] of the master and whose hash
    is its [hashSyncCheckpoint]. *)
Theorem SendSyncCheckpoint_relays_only_committed h connman ms b ms' :
  SendSyncCheckpoint h connman ms = MReturns b ms' ->
  relayed (base ms') = relayed (base ms)
  \/ (b = true
      /\ exists c m,
           connman = Some c
           /\ relayed (base ms') =
                relayed (base ms) ++ map (fun p => (p, m)) (vNodes c)
           /\ VerifyMaster (vchMsg m) (vchSig m) = true
           /\ checkpointMessage (base ms') = m
           /\ hashSyncCheckpoint (base ms') = hashCheckpoint m).
Proof.
  rewrite SendSyncCheckpoint_cases.
  destruct connman as [c|]; [|by intros [= _ <-]; left].
  destruct (GetNodeCount c =? 0)%nat; [by intros [= _ <-]; left|].
  destruct (h =? uint256_zero)%N; [by intros [= _ <-]; left|].
  destruct (String.eqb _ _); [by intros [= _ <-]; left|].
  destruct (DecodeSecret _) as [key|]; [|by intros [= _ <-]; left].
  destruct (Sign key _) as [sig|]; [|by intros [= _ <-]; left].
  destruct (ProcessSyncCheckpoint _ (base ms)) as [[|] n|f] eqn:Hrun;
    [| |done].
  - intros [= <- <-]. right. split; [done|].
    apply ProcessSyncCheckpoint_true_state in Hrun
      as (h' & Hsig & Hdec & Hsync & Hmsg & Hrel).
    exists c, (decoded (signed_checkpoint h sig) h').
    unfold after_CheckSignature. rewrite Hsig, Hdec. simpl.
    rewrite Hrel. by repeat split.
  - intros [= _ <-]. left. simpl.
    by apply ProcessSyncCheckpoint_relayed in Hrun.
Qed.

(** X28.  A key that entered through [SetCheckpointPrivKey] is never found
    invalid.  On a master whose key is unset or decodes,
    [SetCheckpointPrivKey] keeps it so, and [SendSyncCheckpoint] keeps it
    so and never ends in the error "Checkpoint master key invalid". *)
Theorem master_key_never_invalid ms :
  key_usable ms ->
  (forall k b ms',
     SetCheckpointPrivKey k ms = MReturns b ms' -> key_usable ms')
  /\ (forall h connman b ms',
        SendSyncCheckpoint h connman ms = MReturns b ms' ->
        key_usable ms'
        /\ ms' <> master_logged ErrMasterKeyInvalid ms).
Proof.
  unfold key_usable. intros Husable. split.
  - intros k b ms'. unfold SetCheckpointPrivKey. master_run.
    destruct (DecodeSecret k) as [key|] eqn:Hk.
    + intros [= _ <-]. right. simpl. by rewrite Hk.
    + by intros [= _ <-].
  - intros h connman b ms'.
    assert (Hneq : forall l,
      l <> ErrMasterKeyInvalid ->
      forall n : Node CChain,
        master_logged l (set_node n ms)
        <> master_logged ErrMasterKeyInvalid ms).
    { intros l Hl n Heq. apply (f_equal master_log) in Heq.
      unfold master_logged in Heq. simpl in Heq.
      apply app_inj_tail in Heq as [_ [= _ ?]]. done. }
    assert (Hself : ms <> master_logged ErrMasterKeyInvalid ms).
    { intros Heq. apply (f_equal (fun m => length (master_log m))) in Heq.
      unfold master_logged in Heq. simpl in Heq.
      rewrite length_app in Heq. simpl in Heq. lia. }
    assert (Hrelay : forall n : Node CChain,
      set_node n ms <> master_logged ErrMasterKeyInvalid ms).
    { intros n Heq. apply (f_equal (fun m => length (master_log m))) in Heq.
      unfold master_logged in Heq. simpl in Heq.
      rewrite length_app in Heq. simpl in Heq. lia. }
    rewrite SendSyncCheckpoint_cases.
    destruct connman as [c|]; [|by intros [= _ <-]].
    destruct (GetNodeCount c =? 0)%nat; [by intros [= _ <-]|].
    destruct (h =? uint256_zero)%N; [by intros [= _ <-]|].
    destruct (String.eqb_spec (strMasterPrivKey ms) EmptyString) as [|Hne].
    { intros [= _ <-]. split; [done|].
      by apply (Hneq ErrMasterKeyUnavailable ltac:(done) (base ms)). }
    destruct Husable as [|[key Hkey]]; [done|]. rewrite Hkey.
    destruct (Sign key _) as [sig|].
    2:{ intros [= _ <-]. split; [by right; eauto|].
        by apply (Hneq ErrSign ltac:(done) (base ms)). }
    destruct (ProcessSyncCheckpoint _ (base ms)) as [[|] n|f]; [| |done].
    + intros [= _ <-]. split; [by right; eauto|]. apply Hrelay.
    + intros [= _ <-]. split; [by right; eauto|]. by apply Hneq.
Qed.

(** X29.  The functions of the master side keep memory and store in step
    too: when the stored checkpoint is [hashSyncCheckpoint] before a call
    of [ResetSyncCheckpoint], [CheckCheckpointPubKey] or
    [SendSyncCheckpoint], it is so afterwards. *)
Theorem master_store_in_step_preserved ms :
  store_in_step (base ms) ->
  (forall b ms', ResetSyncCheckpoint ms = MReturns b ms' ->
                 store_in_step (base ms'))
  /\ (forall b ms', CheckCheckpointPubKey ms = MReturns b ms' ->
                    store_in_step (base ms'))
  /\ (forall h connman b ms',
        SendSyncCheckpoint h connman ms = MReturns b ms' ->
        store_in_step (base ms')).
Proof.
  intros Hstep.
  assert (Hreset : forall b ms',
    ResetSyncCheckpoint ms = MReturns b ms' -> store_in_step (base ms')).
  { intros b ms'. rewrite ResetSyncCheckpoint_cases.
    by destruct (db_failing _); intros [= _ <-]. }
  split; [done|]. split.
  - intros b ms'.
    destruct (decide (db_pubkey (key_table ms) = Some checkpointPubKey))
      as [Hkey|Hkey].
    + unfold CheckCheckpointPubKey, txdb_ReadCheckpointPubKey. master_run.
      rewrite Hkey, String.eqb_refl. simpl. by intros [= _ <-].
    + rewrite (CheckCheckpointPubKey_changed _ Hkey).
      destruct (ResetSyncCheckpoint ms) as [[|] ms1|f]; [| |done].
      * pose proof (Hreset _ _ eq_refl) as Hr.
        by destruct (db_pubkey_failing _); intros [= _ <-].
      * pose proof (Hreset _ _ eq_refl) as Hr. by intros [= _ <-].
  - intros h connman b ms'. rewrite SendSyncCheckpoint_cases.
    destruct connman as [c|]; [|by intros [= _ <-]].
    destruct (GetNodeCount c =? 0)%nat; [by intros [= _ <-]|].
    destruct (h =? uint256_zero)%N; [by intros [= _ <-]|].
    destruct (String.eqb _ _); [by intros [= _ <-]|].
    destruct (DecodeSecret _) as [key|]; [|by intros [= _ <-]].
    destruct (Sign key _) as [sig|]; [|by intros [= _ <-]].
    destruct (ProcessSyncCheckpoint _ (base ms)) as [[|] n|f] eqn:Hrun;
      [| |done].
    + apply (ProcessSyncCheckpoint_in_step _ _ _ _ Hstep) in Hrun.
      by intros [= _ <-].
    + apply (ProcessSyncCheckpoint_in_step _ _ _ _ Hstep) in Hrun.
      by intros [= _ <-].
Qed.

End SendProperties.

(** * The theorems on the concrete node *)

Import Example.

(** C1 on the fork block X at the height of the checkpoint A and outside the
    active chain G, A, B. *)
Lemma ValidateSyncCheckpoint_not_above_witness :
  ValidateSyncCheckpoint 7%N node_AB =
    Returns false
      (logged (ErrConflicting 7%N 2%N)
         (set_hashInvalidCheckpoint 7%N node_AB))
  /\ ValidateSyncCheckpoint 1%N node_AB = Returns false node_AB.
Proof.
  split.
  - apply (ValidateSyncCheckpoint_not_above node_AB 7%N A X);
      [reflexivity | reflexivity | simpl; lia | reflexivity].
  - apply (ValidateSyncCheckpoint_not_above node_AB 1%N A G);
      [reflexivity | reflexivity | simpl; lia | reflexivity].
Defined.

(** C2 with the checkpoint at B: the block C' on the other branch, the
    child C of the checkpoint, and an entry whose parent links end above the
    checkpoint. *)
Lemma ValidateSyncCheckpoint_above_witness :
  (exists s',
     ValidateSyncCheckpoint 5%N node_B = Returns false s'
     /\ hashInvalidCheckpoint s' = 5%N
     /\ debug_log s' = [ErrNotDescendant 5%N 3%N]
     /\ hashSyncCheckpoint s' = 3%N
     /\ hashPendingCheckpoint s' = uint256_zero
     /\ m_block_tree_db s' = healthy_db 3%N)
  /\ (exists s',
        ValidateSyncCheckpoint 6%N node_B = Returns true s'
        /\ hashInvalidCheckpoint s' = uint256_zero
        /\ debug_log s' = []
        /\ s' = node_B)
  /\ (exists s',
        ValidateSyncCheckpoint 8%N node_B = Returns false s'
        /\ hashInvalidCheckpoint s' = uint256_zero
        /\ debug_log s' = [ErrPprev2Null]
        /\ hashSyncCheckpoint s' = 3%N).
Proof.
  split; [|split].
  - destruct (ValidateSyncCheckpoint_above node_B 5%N B C'
                ltac:(reflexivity) ltac:(reflexivity) ltac:(simpl; lia))
      as (_ & Hreject & _).
    apply (Hreject B'); [reflexivity | discriminate].
  - destruct (ValidateSyncCheckpoint_above node_B 6%N B C
                ltac:(reflexivity) ltac:(reflexivity) ltac:(simpl; lia))
      as (_ & _ & _ & Haccept & _).
    apply (Haccept B); reflexivity.
  - destruct (ValidateSyncCheckpoint_above node_B 8%N B Orphan
                ltac:(reflexivity) ltac:(reflexivity) ltac:(simpl; lia))
      as (_ & _ & Hfailure & _).
    apply Hfailure. reflexivity.
Defined.

(** C3 on the message for C, with the checkpoint at A and C in the active
    chain. *)
Lemma ProcessSyncCheckpoint_commits_witness :
  exists s',
    ProcessSyncCheckpoint msgC node_ABC = Returns true s'
    /\ hashSyncCheckpoint s' = 6%N
    /\ db_checkpoint (m_block_tree_db s') = Some 6%N
    /\ db_writes (m_block_tree_db s') = [6%N; 2%N]
    /\ checkpointMessage s' = decoded msgC 6%N
    /\ hashPendingCheckpoint s' = uint256_zero
    /\ checkpointMessagePending s' = SetNull
    /\ relayed s' = [].
Proof.
  apply (ProcessSyncCheckpoint_commits msgC node_ABC 6%N C); reflexivity.
Defined.

(** C4 with the checkpoint at B and the active chain G, A, B, C: no entry
    of the ancestry of C' at height 2 or above is in the chain, and C is in
    it. *)
Lemma CheckSyncCheckpoint_above_checkpoint_witness :
  CheckSyncCheckpoint (Some C') node_B =
    Returns false (logged ErrOnlyDescendants node_B)
  /\ CheckSyncCheckpoint (Some C) node_B = Returns true node_B.
Proof.
  split.
  - apply (CheckSyncCheckpoint_above_checkpoint node_B B C');
      [reflexivity | reflexivity | simpl; lia | simpl; lia
      | simpl; repeat split; lia | | discriminate].
    intros q Hq Hh. simpl in Hq.
    repeat (apply elem_of_cons in Hq as [->|Hq];
            [first [reflexivity | simpl in Hh; lia]|]).
    by apply elem_of_nil in Hq.
  - apply (CheckSyncCheckpoint_above_checkpoint node_B B C);
      [reflexivity | reflexivity | simpl; lia | simpl; lia
      | simpl; repeat split; lia |].
    exists C. split; [left|]. split; [simpl; lia | reflexivity].
Defined.

(** C6 on the message for C while the active chain ends at B. *)
Lemma ProcessSyncCheckpoint_defers_witness :
  exists s',
    ProcessSyncCheckpoint msgC node_AB = Returns false s'
    /\ hashPendingCheckpoint s' = 6%N
    /\ checkpointMessagePending s' = decoded msgC 6%N
    /\ debug_log s' = [LogPending 6%N]
    /\ m_block_tree_db s' = healthy_db 2%N
    /\ hashSyncCheckpoint s' = 2%N
    /\ checkpointMessage s' = SetNull.
Proof.
  apply (ProcessSyncCheckpoint_defers msgC node_AB 6%N C); reflexivity.
Defined.

(** C7 on the pending checkpoint C once C is in the active chain. *)
Lemma AcceptPendingSyncCheckpoint_commits_or_drops_witness :
  exists s',
    AcceptPendingSyncCheckpoint (with_pending 6%N msgC node_ABC) =
      Returns true s'
    /\ db_writes (m_block_tree_db s') = [6%N; 2%N]
    /\ db_checkpoint (m_block_tree_db s') = Some 6%N
    /\ hashSyncCheckpoint s' = 6%N
    /\ checkpointMessage s' = decoded msgC 6%N
    /\ hashPendingCheckpoint s' = uint256_zero
    /\ checkpointMessagePending s' = SetNull
    /\ relayed s' = [(10%nat, decoded msgC 6%N); (11%nat, decoded msgC 6%N)].
Proof.
  apply (AcceptPendingSyncCheckpoint_commits_or_drops
           (with_pending 6%N msgC node_ABC) C);
    [discriminate | reflexivity..].
Defined.

(** C8 on the message for the fork block X. *)
Lemma ProcessSyncCheckpoint_conflict_witness :
  exists s' l,
    ProcessSyncCheckpoint msgX node_AB = Returns false s'
    /\ (l = ErrConflicting 7%N 2%N \/ l = ErrNotDescendant 7%N 2%N)
    /\ debug_log s' = [l]
    /\ hashInvalidCheckpoint s' = 7%N
    /\ strCheckpointWarning s' = EmptyString
    /\ hashSyncCheckpoint s' = 2%N
    /\ m_block_tree_db s' = healthy_db 2%N.
Proof.
  apply (ProcessSyncCheckpoint_conflict msgX node_AB 7%N A X);
    [reflexivity.. |].
  left. split; [simpl; lia | reflexivity].
Defined.

(** C9 on the message for C: committed once by [ProcessSyncCheckpoint], or
    once as the pending message, then ignored three times. *)
Lemma ProcessSyncCheckpoint_committed_again_witness :
  let s1 := state_after node_ABC (ProcessSyncCheckpoint msgC node_ABC) in
  let s2 :=
    state_after node_ABC
      (AcceptPendingSyncCheckpoint (with_pending 6%N msgC node_ABC)) in
  (ProcessSyncCheckpoint msgC node_ABC = Returns true s1
   /\ process_repeatedly msgC 3 s1 = s1
   /\ ProcessSyncCheckpoint msgC (process_repeatedly msgC 3 s1) =
        Returns false s1)
  /\ (AcceptPendingSyncCheckpoint (with_pending 6%N msgC node_ABC) =
        Returns true s2
      /\ process_repeatedly msgC 3 s2 = s2
      /\ ProcessSyncCheckpoint msgC (process_repeatedly msgC 3 s2) =
           Returns false s2).
Proof.
  intros s1 s2.
  assert (Hfirst : ProcessSyncCheckpoint msgC node_ABC = Returns true s1)
    by (vm_compute; reflexivity).
  assert (Hpending :
    AcceptPendingSyncCheckpoint (with_pending 6%N msgC node_ABC) =
      Returns true s2) by (vm_compute; reflexivity).
  assert (Hsig : VerifyMaster (vchMsg msgC) (vchSig msgC) = true)
    by (vm_compute; reflexivity).
  assert (Hdec : Unserialize (vchMsg msgC) =
                   Some (hashPendingCheckpoint
                           (with_pending 6%N msgC node_ABC)))
    by (vm_compute; reflexivity).
  split.
  - split; [exact Hfirst|].
    exact (proj2 (ProcessSyncCheckpoint_committed_again msgC node_ABC s1
                    (or_introl Hfirst)) 3%nat).
  - split; [exact Hpending|].
    exact (proj2 (ProcessSyncCheckpoint_committed_again msgC
                    (with_pending 6%N msgC node_ABC) s2
                    (or_intror (conj Hsig (conj Hdec Hpending))))
             3%nat).
Defined.

(** C10 on the chain G, A, B, C with depth 2 and with depth 10. *)
Lemma AutoSelectSyncCheckpoint_depth_witness :
  AutoSelectSyncCheckpoint 2 [G; A; B; C] = Some 2%N
  /\ AutoSelectSyncCheckpoint 10 [G; A; B; C] = Some 1%N.
Proof.
  split.
  - destruct (AutoSelectSyncCheckpoint_depth 2 [G; A; B; C] C)
      as [Hdeep _];
      [reflexivity | by repeat split | lia | simpl; lia |].
    destruct Hdeep as (q & Hq & _ & _ & ->); [simpl; lia|].
    by injection Hq as <-.
  - destruct (AutoSelectSyncCheckpoint_depth 10 [G; A; B; C] C)
      as [_ Hshort];
      [reflexivity | by repeat split | lia | simpl; lia |].
    destruct Hshort as [-> _]; [simpl; lia | done].
Defined.

(** * Where the code departs from the claims *)

(** C3 as stated fails: every condition of the claim holds for the message
    for C on a node with two connected peers, and [ProcessSyncCheckpoint]
    commits it, but no peer is sent anything. *)
Lemma ProcessSyncCheckpoint_relay_counterexample :
  VerifyMaster (vchMsg msgC) (vchSig msgC) = true
  /\ Unserialize (vchMsg msgC) = Some 6%N
  /\ m_block_index node_ABC !! 6%N = Some C
  /\ ValidateSyncCheckpoint 6%N node_ABC = Returns true node_ABC
  /\ Contains (m_chain node_ABC) C = true
  /\ g_connman node_ABC = Some (mkConnman [10%nat; 11%nat])
  /\ ~ (exists s',
          ProcessSyncCheckpoint msgC node_ABC = Returns true s'
          /\ forall n, n ∈ [10%nat; 11%nat] ->
                       (n, decoded msgC 6%N) ∈ relayed s').
Proof.
  repeat split; try reflexivity.
  intros (s' & Hrun & Hrel).
  assert (Hs' : relayed s' = []) by (by injection Hrun as <-).
  specialize (Hrel 10%nat ltac:(left)). rewrite Hs' in Hrel.
  by apply elem_of_nil in Hrel.
Qed.

(** C7 as stated fails: the pending checkpoint C is in the active chain and
    passes validation, but the store refuses the write, so
    [AcceptPendingSyncCheckpoint] returns [false], writes nothing and keeps
    the checkpoint pending. *)
Lemma AcceptPendingSyncCheckpoint_write_counterexample :
  let s := with_pending 6%N msgC node_ABC_failing in
  hashPendingCheckpoint s = 6%N
  /\ m_block_index s !! 6%N = Some C
  /\ Contains (m_chain s) C = true
  /\ ValidateSyncCheckpoint 6%N s = Returns true s
  /\ (exists s',
        AcceptPendingSyncCheckpoint s = Returns false s'
        /\ db_writes (m_block_tree_db s') = db_writes (m_block_tree_db s)
        /\ hashSyncCheckpoint s' = 2%N
        /\ hashPendingCheckpoint s' = 6%N
        /\ relayed s' = [])
  /\ ~ (exists s',
          AcceptPendingSyncCheckpoint s = Returns true s'
          /\ hashPendingCheckpoint s' = uint256_zero).
Proof.
  intros s. repeat split; try reflexivity.
  - exists (state_after s (AcceptPendingSyncCheckpoint s)).
    vm_compute. by repeat split.
  - intros (s' & Hrun & _). vm_compute in Hrun. discriminate.
Qed.

(** C8 as stated fails: the message for the fork block X is rejected as
    conflicting, the one for C' as not a descendant; the invalid hash and
    the log line are there, and [strCheckpointWarning] is still empty. *)
Lemma ProcessSyncCheckpoint_warning_counterexample :
  (exists s',
     ProcessSyncCheckpoint msgX node_AB = Returns false s'
     /\ debug_log s' = [ErrConflicting 7%N 2%N]
     /\ hashInvalidCheckpoint s' = 7%N
     /\ strCheckpointWarning s' = EmptyString)
  /\ (exists s',
        ProcessSyncCheckpoint msgC' node_B = Returns false s'
        /\ debug_log s' = [ErrNotDescendant 5%N 3%N]
        /\ hashInvalidCheckpoint s' = 5%N
        /\ strCheckpointWarning s' = EmptyString).
Proof.
  split.
  - exists (state_after node_AB (ProcessSyncCheckpoint msgX node_AB)).
    vm_compute. by repeat split.
  - exists (state_after node_B (ProcessSyncCheckpoint msgC' node_B)).
    vm_compute. by repeat split.
Qed.

(** C10 as stated fails: the depth 2^32 is not negative and exceeds the tip
    height 3, but its conversion to [int] is 0, so the tip itself is
    selected and not the genesis block. *)
Lemma AutoSelectSyncCheckpoint_depth_counterexample :
  Tip [G; A; B; C] = Some C
  /\ rooted_at_genesis C
  /\ 0 <= 4294967296
  /\ nHeight C < 4294967296
  /\ GetBlockHash (root_of C) = 1%N
  /\ AutoSelectSyncCheckpoint 4294967296 [G; A; B; C] = Some 6%N
  /\ AutoSelectSyncCheckpoint 4294967296 [G; A; B; C]
     <> Some (GetBlockHash (root_of C)).
Proof.
  repeat split; try reflexivity; try (simpl; lia); discriminate.
Qed.

(** * The further properties on the concrete node *)

Import MasterExample.

(** X5 on the message for C with a store that refuses the write. *)
Lemma ProcessSyncCheckpoint_write_refused_witness :
  ProcessSyncCheckpoint msgC node_ABC_failing =
    Returns false
      (logged (ErrProcessWrite 6%N)
         (logged (ErrWriteTxdb 6%N) node_ABC_failing)).
Proof.
  apply (ProcessSyncCheckpoint_write_refused msgC node_ABC_failing 6%N C);
    vm_compute; reflexivity.
Defined.

(** X9 on the deferral of the message for C and on the commit of the
    pending checkpoint C. *)
Lemma pending_coherent_preserved_witness :
  pending_coherent
    (state_after node_AB (ProcessSyncCheckpoint msgC node_AB))
  /\ pending_coherent
       (state_after node_ABC
          (AcceptPendingSyncCheckpoint (with_pending 6%N msgC node_ABC))).
Proof.
  split.
  - apply (proj1 (pending_coherent_preserved node_AB
                    ltac:(reflexivity)) msgC false).
    vm_compute; reflexivity.
  - apply (proj2 (pending_coherent_preserved
                    (with_pending 6%N msgC node_ABC)
                    ltac:(reflexivity)) true).
    vm_compute; reflexivity.
Defined.

(** X10 on the pending checkpoint C with two peers connected. *)
Lemma AcceptPendingSyncCheckpoint_relays_to_all_witness :
  let s := with_pending 6%N msgC node_ABC in
  let s' := state_after s (AcceptPendingSyncCheckpoint s) in
  relayed s' = [(10%nat, decoded msgC 6%N); (11%nat, decoded msgC 6%N)]
  /\ checkpointMessage s' = decoded msgC 6%N
  /\ hashCheckpoint (checkpointMessage s') = hashSyncCheckpoint s'.
Proof.
  intros s s'.
  apply (AcceptPendingSyncCheckpoint_relays_to_all s peers s');
    vm_compute; reflexivity.
Defined.

(** X11 on the commit of the message for C and on the refused write. *)
Lemma store_in_step_preserved_witness :
  store_in_step
    (state_after node_ABC (ProcessSyncCheckpoint msgC node_ABC))
  /\ store_in_step
       (state_after node_ABC_failing
          (ProcessSyncCheckpoint msgC node_ABC_failing)).
Proof.
  split.
  - apply (proj1 (proj2 (store_in_step_preserved node_ABC
                           ltac:(reflexivity))) msgC true).
    vm_compute; reflexivity.
  - apply (proj1 (proj2 (store_in_step_preserved node_ABC_failing
                           ltac:(reflexivity))) msgC false).
    vm_compute; reflexivity.
Defined.

(** X12 with the checkpoint at B: the fork block B' at the same height, the
    fork block X below it and in the index, the block Y below it and not in
    the index. *)
Lemma CheckSyncCheckpoint_not_above_witness :
  CheckSyncCheckpoint (Some B') node_B =
    Returns false (logged ErrSameHeight node_B)
  /\ CheckSyncCheckpoint (Some B) node_B = Returns true node_B
  /\ CheckSyncCheckpoint (Some X) node_B = Returns true node_B
  /\ CheckSyncCheckpoint (Some Y) node_B =
       Returns false (logged ErrLowerHeight node_B).
Proof.
  split; [|split; [|split]].
  - destruct (CheckSyncCheckpoint_not_above node_B B B'
                ltac:(reflexivity) ltac:(reflexivity)
                ltac:(simpl; lia) ltac:(simpl; lia)) as [Hsame _].
    apply Hsame; [reflexivity | discriminate].
  - destruct (CheckSyncCheckpoint_not_above node_B B B
                ltac:(reflexivity) ltac:(reflexivity)
                ltac:(simpl; lia) ltac:(simpl; lia)) as [Hsame _].
    apply Hsame; reflexivity.
  - destruct (CheckSyncCheckpoint_not_above node_B B X
                ltac:(reflexivity) ltac:(reflexivity)
                ltac:(simpl; lia) ltac:(simpl; lia)) as [_ Hlow].
    apply Hlow; [simpl; lia | by exists X].
  - destruct (CheckSyncCheckpoint_not_above node_B B Y
                ltac:(reflexivity) ltac:(reflexivity)
                ltac:(simpl; lia) ltac:(simpl; lia)) as [_ Hlow].
    apply Hlow; [simpl; lia | reflexivity].
Defined.

(** X14 with the checkpoint at B: the chain block C and the new child D of
    the tip. *)
Lemma CheckSyncCheckpoint_extends_chain_witness :
  CheckSyncCheckpoint (Some C) node_B = Returns true node_B
  /\ CheckSyncCheckpoint (Some D) node_B = Returns true node_B.
Proof.
  split.
  - apply (CheckSyncCheckpoint_extends_chain node_B B C);
      [reflexivity | reflexivity | simpl; lia | simpl; lia |].
    by left.
  - apply (CheckSyncCheckpoint_extends_chain node_B B D);
      [reflexivity | reflexivity | simpl; lia | simpl; lia |].
    right. by exists C.
Defined.

(** X15 on the refusal of the fork block C' and on the chain block C. *)
Lemma CheckSyncCheckpoint_read_only_witness :
  (exists l,
     state_after node_B (CheckSyncCheckpoint (Some C') node_B) =
       logged l node_B
     /\ l ∈ [ErrPprevNull; ErrOnlyDescendants; ErrSameHeight;
             ErrLowerHeight])
  /\ state_after node_B (CheckSyncCheckpoint (Some C) node_B) = node_B.
Proof.
  assert (Hrefused :
    CheckSyncCheckpoint (Some C') node_B =
      Returns false
        (state_after node_B (CheckSyncCheckpoint (Some C') node_B)))
    by (vm_compute; reflexivity).
  assert (Hpassed :
    CheckSyncCheckpoint (Some C) node_B =
      Returns true
        (state_after node_B (CheckSyncCheckpoint (Some C) node_B)))
    by (vm_compute; reflexivity).
  split.
  - destruct (CheckSyncCheckpoint_read_only _ _ _ _ Hrefused)
      as [[Hb _]|[_ Hl]]; [discriminate | exact Hl].
  - destruct (CheckSyncCheckpoint_read_only _ _ _ _ Hpassed)
      as [[_ Hs]|[Hb _]]; [exact Hs | discriminate].
Defined.

(** X16 on the chain G, A, B, C with the default depth -1 and depth 0. *)
Lemma AutoSelectSyncCheckpoint_tip_witness :
  AutoSelectSyncCheckpoint (-1) [G; A; B; C] = Some 6%N
  /\ AutoSelectSyncCheckpoint 0 [G; A; B; C] = Some 6%N.
Proof.
  split.
  - apply (AutoSelectSyncCheckpoint_tip (-1) [G; A; B; C] C);
      [reflexivity | lia | simpl; lia].
  - apply (AutoSelectSyncCheckpoint_tip 0 [G; A; B; C] C);
      [reflexivity | lia | simpl; lia].
Defined.

(** X19 on the master whose store holds the master public key. *)
Lemma CheckCheckpointPubKey_same_key_witness :
  CheckCheckpointPubKey master_ABC = MReturns true master_ABC.
Proof.
  apply (CheckCheckpointPubKey_same_key master_ABC). reflexivity.
Defined.

(** X20 on the node that starts with the key of another network. *)
Lemma CheckCheckpointPubKey_new_key_witness :
  exists ms',
    CheckCheckpointPubKey master_old_key = MReturns true ms'
    /\ hashSyncCheckpoint (base ms') = 1%N
    /\ db_checkpoint (m_block_tree_db (base ms')) = Some 1%N
    /\ db_pubkey (key_table ms') = Some "master-pub"
    /\ hashPendingCheckpoint (base ms') = uint256_zero
    /\ CheckCheckpointPubKey ms' = MReturns true ms'.
Proof.
  assert (Hkey : db_pubkey (key_table master_old_key)
                 <> Some checkpointPubKey) by (vm_compute; discriminate).
  exact (CheckCheckpointPubKey_new_key master_old_key Hkey
           eq_refl eq_refl).
Defined.

(** X21 on the same node with a store that refuses the checkpoint, and with
    one that refuses the key. *)
Lemma CheckCheckpointPubKey_refused_witness :
  (exists ms',
     CheckCheckpointPubKey master_old_key_failing = MReturns false ms'
     /\ db_pubkey (key_table ms') = Some "old-pub"
     /\ hashSyncCheckpoint (base ms') = 2%N
     /\ m_block_tree_db (base ms') = failing_db 2%N
     /\ master_log ms' =
          [(1%nat, ErrResetWrite 1%N); (1%nat, ErrPubKeyReset)])
  /\ (exists ms',
        CheckCheckpointPubKey master_old_key_refused = MReturns false ms'
        /\ db_pubkey (key_table ms') = Some "old-pub"
        /\ hashSyncCheckpoint (base ms') = 1%N
        /\ db_checkpoint (m_block_tree_db (base ms')) = Some 1%N
        /\ master_log ms' = [(0%nat, ErrPubKeyWrite)]).
Proof.
  assert (Hkey1 : db_pubkey (key_table master_old_key_failing)
                  <> Some checkpointPubKey) by (vm_compute; discriminate).
  assert (Hkey2 : db_pubkey (key_table master_old_key_refused)
                  <> Some checkpointPubKey) by (vm_compute; discriminate).
  split.
  - exact (proj1 (CheckCheckpointPubKey_refused master_old_key_failing
                    Hkey1) eq_refl).
  - exact (proj2 (CheckCheckpointPubKey_refused master_old_key_refused
                    Hkey2) eq_refl eq_refl).
Defined.

(** X24 on a master without key and on one whose key does not decode. *)
Lemma SendSyncCheckpoint_without_key_witness :
  SendSyncCheckpoint 6%N (Some peers) master_old_key =
    MReturns false (master_logged ErrMasterKeyUnavailable master_old_key)
  /\ SendSyncCheckpoint 6%N (Some peers) master_bad_key =
       MReturns false (master_logged ErrMasterKeyInvalid master_bad_key).
Proof.
  assert (Hpeers : GetNodeCount peers <> 0%nat)
    by (vm_compute; discriminate).
  assert (Hhash : 6%N <> uint256_zero) by discriminate.
  assert (Hbad : strMasterPrivKey master_bad_key <> EmptyString)
    by (vm_compute; discriminate).
  split.
  - exact (proj1 (SendSyncCheckpoint_without_key 6%N peers master_old_key
                    Hpeers Hhash) eq_refl).
  - exact (proj1 (proj2 (SendSyncCheckpoint_without_key 6%N peers
                           master_bad_key Hpeers Hhash)) Hbad eq_refl).
Defined.

(** X25 on the master sending the checkpoint C. *)
Lemma SendSyncCheckpoint_commits_and_relays_witness :
  exists ms',
    SendSyncCheckpoint 6%N (Some peers) master_ABC = MReturns true ms'
    /\ hashSyncCheckpoint (base ms') = 6%N
    /\ db_checkpoint (m_block_tree_db (base ms')) = Some 6%N
    /\ checkpointMessage (base ms') = signed_checkpoint 6%N [Byte.x06]
    /\ relayed (base ms') =
         [(10%nat, signed_checkpoint 6%N [Byte.x06]);
          (11%nat, signed_checkpoint 6%N [Byte.x06])]
    /\ master_log ms' = [].
Proof.
  assert (Hpeers : GetNodeCount peers <> 0%nat)
    by (vm_compute; discriminate).
  assert (Hhash : 6%N <> uint256_zero) by discriminate.
  assert (Hkey : strMasterPrivKey master_ABC <> EmptyString)
    by (vm_compute; discriminate).
  assert (Hval : ValidateSyncCheckpoint 6%N (base master_ABC) =
                   Returns true (base master_ABC))
    by (vm_compute; reflexivity).
  exact (SendSyncCheckpoint_commits_and_relays 6%N peers master_ABC tt
           [Byte.x06] C Hpeers Hhash Hkey eq_refl eq_refl eq_refl eq_refl
           eq_refl Hval eq_refl eq_refl).
Defined.

(** X26 on the master sending C while its active chain ends at B. *)
Lemma SendSyncCheckpoint_deferred_witness :
  exists ms',
    SendSyncCheckpoint 6%N (Some peers) master_AB = MReturns false ms'
    /\ hashPendingCheckpoint (base ms') = 6%N
    /\ checkpointMessagePending (base ms') =
         signed_checkpoint 6%N [Byte.x06]
    /\ hashSyncCheckpoint (base ms') = 2%N
    /\ m_block_tree_db (base ms') = healthy_db 2%N
    /\ relayed (base ms') = []
    /\ debug_log (base ms') = [LogPending 6%N]
    /\ master_log ms' = [(1%nat, ErrSendProcess)].
Proof.
  assert (Hpeers : GetNodeCount peers <> 0%nat)
    by (vm_compute; discriminate).
  assert (Hhash : 6%N <> uint256_zero) by discriminate.
  assert (Hkey : strMasterPrivKey master_AB <> EmptyString)
    by (vm_compute; discriminate).
  assert (Hval : ValidateSyncCheckpoint 6%N (base master_AB) =
                   Returns true (base master_AB))
    by (vm_compute; reflexivity).
  exact (SendSyncCheckpoint_deferred 6%N peers master_AB tt [Byte.x06] C
           Hpeers Hhash Hkey eq_refl eq_refl eq_refl eq_refl eq_refl Hval
           eq_refl).
Defined.

(** X27 on the two calls above. *)
Lemma SendSyncCheckpoint_relays_only_committed_witness :
  (exists ms',
     SendSyncCheckpoint 6%N (Some peers) master_ABC = MReturns true ms'
     /\ (relayed (base ms') = relayed (base master_ABC)
         \/ (true = true
             /\ exists c m,
                  Some peers = Some c
                  /\ relayed (base ms') =
                       relayed (base master_ABC)
                       ++ map (fun p => (p, m)) (vNodes c)
                  /\ VerifyMaster (vchMsg m) (vchSig m) = true
                  /\ checkpointMessage (base ms') = m
                  /\ hashSyncCheckpoint (base ms') = hashCheckpoint m))).
Proof.
  destruct (SendSyncCheckpoint 6%N (Some peers) master_ABC)
    as [[|] ms'|f] eqn:Hrun; [|vm_compute in Hrun; discriminate..].
  exists ms'. split; [reflexivity|].
  exact (SendSyncCheckpoint_relays_only_committed _ _ _ _ _ Hrun).
Defined.

(** X28 on the master with its key. *)
Lemma master_key_never_invalid_witness :
  key_usable master_ABC
  /\ (forall h connman b ms',
        SendSyncCheckpoint h connman master_ABC = MReturns b ms' ->
        key_usable ms'
        /\ ms' <> master_logged ErrMasterKeyInvalid master_ABC).
Proof.
  assert (Husable : key_usable master_ABC) by (right; by exists tt).
  split; [exact Husable|].
  exact (proj2 (master_key_never_invalid master_ABC Husable)).
Defined.

(** X29 on the reset of the node that starts with another key. *)
Lemma master_store_in_step_preserved_witness :
  store_in_step (base master_old_key)
  /\ forall b ms',
       CheckCheckpointPubKey master_old_key = MReturns b ms' ->
       store_in_step (base ms').
Proof.
  assert (Hstep : store_in_step (base master_old_key)) by reflexivity.
  split; [exact Hstep|].
  exact (proj1 (proj2 (master_store_in_step_preserved master_old_key
                         Hstep))).
Defined.
